(** * lodestar-cli: the transaction builder (transactions.mjs)

    A shallow embedding of [createSquaresMask], [sendCheckpointTx] and
    [sendDeployTx], with the JavaScript and Node primitives they rest on:
    32-bit integer operators, [Buffer] writes, IEEE binary64 numbers,
    exceptions and the observable effects (log lines, submissions, calls of
    the fatal-error handler).

    A function of the module becomes a computation in a small writer and
    exception monad: it yields the events it caused and either a value or
    the error it threw. The network is a record of answers. Addresses are
    opaque, and the exports of ./constants.mjs and ./solana.mjs are
    parameters of the development. The one-second pause before the logs of
    a failed deploy are fetched has no counterpart here. *)

From Stdlib Require Import ZArith String Ascii Bool Lia.
From Stdlib Require Import Floats DecimalString.
From Stdlib Require Import List Permutation.
Import ListNotations.

#[local] Set Warnings "-inexact-float".
#[local] Open Scope Z_scope.

(** ** JavaScript primitives *)

Module Js.

(** ToInt32: the wrap-around every bitwise operator applies to its
    operands and to its result. *)
Definition toInt32 (x : Z) : Z := (x + 2 ^ 31) mod 2 ^ 32 - 2 ^ 31.

(** [a << b]: the shift count is taken modulo 32. *)
Definition shl (a b : Z) : Z := toInt32 (Z.shiftl (toInt32 a) (b mod 32)).

(** [a | b]. *)
Definition bor (a b : Z) : Z := toInt32 (Z.lor (toInt32 a) (toInt32 b)).

(** A thrown value: an [Error] with its message and, for a failed
    submission, the program logs the RPC node attached to it. *)
Record Error := mkError { message : string; logs : option (list string) }.

Definition RangeError (msg : string) : Error := mkError msg None.

(** How an evaluation ends: with a value, or by throwing. *)
Inductive Completion (A : Type) : Type :=
| Normal (a : A)
| Throw (e : Error).
Arguments Normal {A} a.
Arguments Throw {A} e.

(** [BigInt(Math.floor(x))] on a binary64 [x]. [Math.floor] keeps NaN and
    the infinities, on which [BigInt] throws a RangeError; a finite
    [x = (-1)^s * m * 2^e] gives the integer below it. *)
Definition floorZ (x : float) : option Z :=
  match Prim2SF x with
  | S754_zero _ => Some 0
  | S754_finite s m e =>
      let v := if s then Z.neg m else Z.pos m in
      Some (if 0 <=? e then v * 2 ^ e else v / 2 ^ (- e))
  | S754_infinity _ | S754_nan => None
  end.

(** The same value rounded toward zero instead (what [Math.trunc] does). *)
Definition truncZ (x : float) : option Z :=
  match Prim2SF x with
  | S754_zero _ => Some 0
  | S754_finite s m e =>
      let v := if s then Z.neg m else Z.pos m in
      Some (if 0 <=? e then v * 2 ^ e else Z.quot v (2 ^ (- e)))
  | S754_infinity _ | S754_nan => None
  end.

(** How a template string shows a Number that is not finite. *)
Definition showNonFinite (x : float) : string :=
  (if PrimFloat.is_nan x then "NaN"
   else if (x <? 0)%float then "-Infinity"
   else "Infinity")%string.

Definition BigInt_floor (x : float) : Completion Z :=
  match floorZ x with
  | Some z => Normal z
  | None =>
      Throw (RangeError
               ("The number " ++ showNonFinite x
                ++ " cannot be converted to a BigInt because it is not an integer")%string)
  end.

(** An array length as a Number (exact: lengths stay below 2^32). *)
Definition ofLength (n : nat) : float := PrimFloat.of_uint63 (Uint63.of_Z (Z.of_nat n)).

(** [String.prototype.includes]. *)
Fixpoint includes (s needle : string) : bool :=
  String.prefix needle s
  || match s with
     | EmptyString => false
     | String _ rest => includes rest needle
     end.

(** [Array.prototype.join]. *)
Definition join (sep : string) (xs : list string) : string := String.concat sep xs.

(** [s.slice(0, n)]. *)
Definition slice0 (n : nat) (s : string) : string := String.substring 0 n s.

(** Decimal rendering of an integer and of a length in a template string. *)
Definition showZ (z : Z) : string := NilZero.string_of_int (Z.to_int z).
Definition showNat (n : nat) : string := NilZero.string_of_uint (Nat.to_uint n).

End Js.

(** ** Node's Buffer *)

Module Buffer.

(** A buffer is its bytes, each in [0, 256). *)
Definition t := list Z.

(** [Buffer.alloc(n)]: zero-filled. *)
Definition alloc (n : nat) : t := repeat 0 n.

(** The [n] low bytes of [v], least significant first. *)
Fixpoint le_bytes (n : nat) (v : Z) : list Z :=
  match n with
  | O => []
  | S k => v mod 256 :: le_bytes k (v / 256)
  end.

(** The unsigned integer a little-endian byte string stands for. *)
Fixpoint le_value (bs : list Z) : Z :=
  match bs with
  | [] => 0
  | b :: rest => b + 256 * le_value rest
  end.

(** Overwrite [length bs] bytes from [offset] on. *)
Definition blit (buf : t) (offset : nat) (bs : list Z) : t :=
  firstn offset buf ++ bs ++ skipn (offset + length bs) buf.

(** The integer writes check the value against the field's range and the
    offset against the buffer's length, and throw ERR_OUT_OF_RANGE
    otherwise. *)
Definition write_le (width : nat) (buf : t) (value : Z) (offset : nat)
  : Js.Completion t :=
  if (0 <=? value) && (value <? 2 ^ (8 * Z.of_nat width))
     && (offset + width <=? length buf)%nat
  then Js.Normal (blit buf offset (le_bytes width value))
  else Js.Throw (Js.RangeError "ERR_OUT_OF_RANGE").

Definition writeUInt8 := write_le 1.
Definition writeUInt32LE := write_le 4.
Definition writeBigUInt64LE := write_le 8.

End Buffer.

(** ** Bet encoder *)

Record Target := mkTarget { id : Z }.

(** Creates the 32-bit bitmask for the target squares. *)
Definition createSquaresMask (targets : list Target) : Z :=
  fold_left
    (fun mask target =>
       let squareIndex := id target - 1 in
       if (0 <=? squareIndex) && (squareIndex <? 25)
       then Js.bor mask (Js.shl 1 squareIndex)
       else mask)
    targets 0.

(** Number of set bits among the 32 bits of a mask. *)
Definition popcount (mask : Z) : nat :=
  length (filter (fun i => Z.testbit mask (Z.of_nat i)) (seq 0 32)).

(** ** Values of @solana/web3.js *)

Module Web3.

(** [new PublicKey(base58)]: an address, named by its base-58 text. *)
Inductive PublicKey := PublicKey_new (base58 : string).

Record Keypair := mkKeypair { publicKey : PublicKey }.

Record AccountMeta := mkMeta
  { pubkey : PublicKey; isSigner : bool; isWritable : bool }.

(** The instructions the library builds ([ComputeBudgetProgram],
    [SystemProgram.transfer]) and the ones built by hand. *)
Inductive Instruction :=
| SetComputeUnitLimit (units : Z)
| SetComputeUnitPrice (microLamports : Z)
| Transfer (fromPubkey toPubkey : PublicKey) (lamports : Z)
| TransactionInstruction
    (keys : list AccountMeta) (programId : PublicKey) (data : Buffer.t).

(** [SystemProgram.transfer]: the lamports are encoded as an unsigned
    64-bit integer, and the call throws for an amount outside that
    range. *)
Definition SystemProgram_transfer (fromPubkey toPubkey : PublicKey) (lamports : Z)
  : Js.Completion Instruction :=
  if (0 <=? lamports) && (lamports <? 2 ^ 64)
  then Js.Normal (Transfer fromPubkey toPubkey lamports)
  else Js.Throw (Js.RangeError "ERR_OUT_OF_RANGE").

(** A transaction is its instructions, in the order they were added. *)
Definition Transaction := list Instruction.

Definition add (tx : Transaction) (ix : Instruction) : Transaction := tx ++ [ix].

Record AccountInfo := mkAccountInfo { data : Buffer.t }.

(** What the network answers during one cycle: the account stored at an
    address (or none), the outcome of submitting and confirming a
    transaction (its signature, or a thrown failure), and the logs of a
    signature. Each call may also reject. *)
Record Connection := mkConnection
  { getAccountInfo : PublicKey -> Js.Completion (option AccountInfo);
    confirm : Transaction -> list Keypair -> Js.Completion string;
    getLogs : string -> Js.Completion (list string) }.

End Web3.

Import Web3.

(** ** Effects

    A run yields the events it caused, oldest first, and its completion. *)

Inductive Event :=
| Log (msg : string)
| Send (tx : Transaction) (signers : list Keypair)
| Fatal (e : Js.Error) (logs : option (list string)).

Definition Eff (A : Type) : Type := (list Event * Js.Completion A)%type.

Definition ret {A} (a : A) : Eff A := ([], Js.Normal a).

Definition bind {A B} (m : Eff A) (k : A -> Eff B) : Eff B :=
  match m with
  | (tr, Js.Normal a) => let (tr', r) := k a in (tr ++ tr', r)
  | (tr, Js.Throw e) => (tr, Js.Throw e)
  end.

Notation "x <- m ;; k" := (bind m (fun x => k))
  (at level 61, m at next level, right associativity).
Notation "m ;; k" := (bind m (fun _ => k))
  (at level 61, right associativity).

Definition throw {A} (e : Js.Error) : Eff A := ([], Js.Throw e).

(** A synchronous call that may throw, or an awaited promise that may
    reject. *)
Definition lift {A} (c : Js.Completion A) : Eff A := ([], c).

(** [try { m } catch (e) { h e }]. *)
Definition try_catch {A} (m : Eff A) (h : Js.Error -> Eff A) : Eff A :=
  match m with
  | (tr, Js.Normal a) => (tr, Js.Normal a)
  | (tr, Js.Throw e) => let (tr', r) := h e in (tr ++ tr', r)
  end.

(** A [try] block whose [catch] leaves the function: the caught error is
    handed to the continuation. *)
Definition attempt {A} (m : Eff A) : Eff (A + Js.Error) :=
  try_catch (a <- m ;; ret (inl a)) (fun e => ret (inr e)).

Definition log (msg : string) : Eff unit := ([Log msg], Js.Normal tt).

Definition handleFatalError (e : Js.Error) (logs : option (list string)) : Eff unit :=
  ([Fatal e logs], Js.Normal tt).

Definition sendAndConfirmTransaction
  (connection : Connection) (tx : Transaction) (signers : list Keypair) : Eff string :=
  ([Send tx signers], confirm connection tx signers).

Definition events {A} (m : Eff A) : list Event := fst m.
Definition completion {A} (m : Eff A) : Js.Completion A := snd m.

(** The transactions submitted, the fatal-handler calls and the log lines of
    a trace. *)
Definition sent (tr : list Event) : list Transaction :=
  flat_map (fun ev => match ev with Send tx _ => [tx] | _ => [] end) tr.

Definition fatals (tr : list Event) : list Js.Error :=
  flat_map (fun ev => match ev with Fatal e _ => [e] | _ => [] end) tr.

Definition logged (tr : list Event) : list string :=
  flat_map (fun ev => match ev with Log msg => [msg] | _ => [] end) tr.

(** ** The regular expression of the deploy cycle's failure path *)

Definition isAlnum (c : ascii) : bool :=
  let n := nat_of_ascii c in
  ((48 <=? n) && (n <=? 57) || (65 <=? n) && (n <=? 90) || (97 <=? n) && (n <=? 122))%nat.

(** The longest run of at most [n] letters and digits at the head of [s]. *)
Fixpoint alnumRun (n : nat) (s : string) : string :=
  match n, s with
  | S k, String c rest => if isAlnum c then String c (alnumRun k rest) else EmptyString
  | _, _ => EmptyString
  end.

(** What is left of [s] after the prefix [p], when [s] starts with it. *)
Fixpoint stripPrefix (p s : string) : option string :=
  match p, s with
  | EmptyString, _ => Some s
  | String a p', String b s' => if Ascii.eqb a b then stripPrefix p' s' else None
  | String _ _, EmptyString => None
  end.

(** [s.match(/Transaction ([a-zA-Z0-9]{87,88})/)]: the first group of the
    leftmost match. *)
Fixpoint matchSignature (s : string) : option string :=
  let here :=
    match stripPrefix "Transaction " s with
    | Some tail =>
        let run := alnumRun 88 tail in
        if (87 <=? String.length run)%nat then Some run else None
    | None => None
    end in
  match here, s with
  | Some sig, _ => Some sig
  | None, String _ rest => matchSignature rest
  | None, EmptyString => None
  end.

(** ** Decoded accounts and process state *)

(** [total_deployed] is [None] where the decoded object lacks the field. *)
Record RoundData := mkRound { total_deployed : option Z }.

Record MinerData := mkMiner { round_id : Z; checkpoint_id : Z }.

(** What [getState()] returns when the cycle starts. *)
Record State := mkState { currentRoundId : Z; customDeployAmount : float }.

Definition newline : string := String (ascii_of_nat 10) EmptyString.

(** The marker of the program error raised for a checkpoint that is already
    done or not yet due. *)
Definition benignMarker : string := "custom program error: 0x1".

(** The text the checkpoint failure path searches: the log lines joined
    when the failure carries a log array (an empty one included), its
    message otherwise. *)
Definition errorLogs (e : Js.Error) : string :=
  match Js.logs e with
  | Some ls => Js.join newline ls
  | None => Js.message e
  end.

#[local] Open Scope string_scope.

(** ** Vocabulary of the properties: instructions and masks *)

(** The address every fee transfer pays. *)
Definition feeRecipient : PublicKey :=
  PublicKey_new "oREVE663st4oVqRp31TdEKdjqUYmZkJ3Vofi1zEAPro".

(** A checkpoint instruction: its data is the opcode byte 2 alone. *)
Definition isCheckpoint (ix : Instruction) : bool :=
  match ix with
  | TransactionInstruction _ _ [2%Z] => true
  | _ => false
  end.

Definition isTransfer (ix : Instruction) : bool :=
  match ix with
  | Transfer _ _ _ => true
  | _ => false
  end.

(** The target's square takes part in the mask. *)
Definition inRange (t : Target) : bool :=
  ((0 <=? id t - 1) && (id t - 1 <? 25))%Z.

(** Some target of the selection carries the identifier [k]. *)
Definition selects (targets : list Target) (k : Z) : Prop :=
  exists t, In t targets /\ id t = k.

(** One turn of the loop of [createSquaresMask]. *)
Definition maskStep (mask : Z) (target : Target) : Z :=
  let squareIndex := (id target - 1)%Z in
  if ((0 <=? squareIndex) && (squareIndex <? 25))%Z
  then Js.bor mask (Js.shl 1 squareIndex)
  else mask.

(** ** The transaction functions *)

Section Transactions.

(** Exports of ./constants.mjs and ./solana.mjs, which are not among the
    sources at hand: the program addresses, the conversion constant, the
    address derivations and the account decoders (which may throw). *)
Variables ORE_PROGRAM_ID SYSTEM_PROGRAM_ID : PublicKey.
Variable SOL_PER_LAMPORT : float.
Variables getBoardPda getTreasuryPda : PublicKey.
Variable getRoundPda : Z -> PublicKey.
Variables getMinerPda getAutomationPda : PublicKey -> PublicKey.
Variable parseMiner : Buffer.t -> Js.Completion MinerData.
Variable parseRound : Buffer.t -> Js.Completion RoundData.

(** Sends a Checkpoint transaction for a specific round. *)
Definition sendCheckpointTx
  (roundToCheckpoint : Z) (connection : Connection) (signer : option Keypair)
  : Eff bool :=
  match signer with
  | None =>
      log "checkpoint FAILED: signer keypair not loaded" ;;
      ret false
  | Some signer =>
      try_catch
        (let authority := publicKey signer in
         let accounts :=
           [ mkMeta (publicKey signer) true true;
             mkMeta getBoardPda false true;
             mkMeta (getMinerPda authority) false true;
             mkMeta (getRoundPda roundToCheckpoint) false true;
             mkMeta getTreasuryPda false true;
             mkMeta SYSTEM_PROGRAM_ID false false ] in
         dataBuffer <- lift (Buffer.writeUInt8 (Buffer.alloc 1) 2 0) ;;
         let instruction := TransactionInstruction accounts ORE_PROGRAM_ID dataBuffer in
         let transaction := add [] instruction in
         signature <- sendAndConfirmTransaction connection transaction [signer] ;;
         log ("checkpoint successful: " ++ Js.slice0 16 signature ++ "...") ;;
         ret true)
        (fun e =>
           let errorLogs := errorLogs e in
           if Js.includes errorLogs benignMarker
           then
             log ("checkpoint for round " ++ Js.showZ roundToCheckpoint
                  ++ " already done or not needed") ;;
             ret true
           else
             handleFatalError e None ;;
             ret false)
  end.

(** Builds, signs, and sends the Deploy transaction. *)
Definition sendDeployTx
  (state : State) (targets : list Target) (connection : Connection)
  (signer : option Keypair) : Eff unit :=
  match signer with
  | None => log "deploy failed: signer keypair not loaded"
  | Some signer =>
  if (length targets =? 0)%nat
  then log "deploy skipped: no targets provided"
  else
  try_catch
    (let currentRoundId := currentRoundId state in
     let customDeployAmount := customDeployAmount state in
     let authority := publicKey signer in
     let feeRecipient := PublicKey_new "oREVE663st4oVqRp31TdEKdjqUYmZkJ3Vofi1zEAPro" in
     let newRoundPda := getRoundPda currentRoundId in
     newRoundAccountInfo <- lift (getAccountInfo connection newRoundPda) ;;
     match newRoundAccountInfo with
     | None =>
         log ("deploy skipped: round " ++ Js.showZ currentRoundId
              ++ " account not found. Waiting for next tick.")
     | Some newRoundAccountInfo =>
     parsed <- attempt
                 (roundData <- lift (parseRound (data newRoundAccountInfo)) ;;
                  match total_deployed roundData with
                  | None => throw (Js.mkError "Parsed data is malformed." None)
                  | Some _ => ret roundData
                  end) ;;
     match parsed with
     | inr parseErr =>
         log ("deploy skipped: round " ++ Js.showZ currentRoundId
              ++ " account found but not initialized. Waiting for next tick.")
     | inl roundData =>
     let minerPda := getMinerPda authority in
     minerAccountInfo <- lift (getAccountInfo connection minerPda) ;;
     ids <- match minerAccountInfo with
            | Some minerAccountInfo =>
                minerData <- lift (parseMiner (data minerAccountInfo)) ;;
                ret (round_id minerData, checkpoint_id minerData)
            | None => ret (0, 0)%Z
            end ;;
     let minerRoundId := fst ids in
     let minerCheckpointId := snd ids in
     let transaction := [] in
     let transaction := add transaction (SetComputeUnitLimit 750000) in
     let transaction := add transaction (SetComputeUnitPrice 100000) in
     let isStateDirty := negb (minerRoundId =? minerCheckpointId)%Z in
     let canCheckpoint := (minerRoundId <? currentRoundId)%Z in
     transaction <-
       (if isStateDirty && canCheckpoint
        then
          let checkpointAccounts :=
            [ mkMeta (publicKey signer) true true;
              mkMeta getBoardPda false false;
              mkMeta (getMinerPda authority) false true;
              mkMeta (getRoundPda minerRoundId) false true;
              mkMeta getTreasuryPda false true;
              mkMeta SYSTEM_PROGRAM_ID false false ] in
          checkpointData <- lift (Buffer.writeUInt8 (Buffer.alloc 1) 2 0) ;;
          ret (add transaction
                 (TransactionInstruction checkpointAccounts ORE_PROGRAM_ID checkpointData))
        else if isStateDirty && negb canCheckpoint
        then
          log ("warning: state dirty but round " ++ Js.showZ minerRoundId
               ++ " is current. skipping checkpoint.") ;;
          ret transaction
        else ret transaction) ;;
     let deployAccounts :=
       [ mkMeta (publicKey signer) true true;
         mkMeta authority false true;
         mkMeta (getAutomationPda authority) false true;
         mkMeta getBoardPda false true;
         mkMeta (getMinerPda authority) false true;
         mkMeta (getRoundPda currentRoundId) false true;
         mkMeta SYSTEM_PROGRAM_ID false false ] in
     amountLamports <-
       lift (Js.BigInt_floor (customDeployAmount / SOL_PER_LAMPORT)%float) ;;
     let squaresMask := createSquaresMask targets in
     let totalSolDeployed := (customDeployAmount * Js.ofLength (length targets))%float in
     feeAmountLamports <-
       lift (Js.BigInt_floor (totalSolDeployed * 0.01 / SOL_PER_LAMPORT)%float) ;;
     deployData <- lift (Buffer.writeUInt8 (Buffer.alloc (1 + 8 + 4)) 6 0) ;;
     deployData <- lift (Buffer.writeBigUInt64LE deployData amountLamports 1) ;;
     deployData <- lift (Buffer.writeUInt32LE deployData squaresMask 9) ;;
     let deployInstruction :=
       TransactionInstruction deployAccounts ORE_PROGRAM_ID deployData in
     transaction <-
       (if (feeAmountLamports >? 0)%Z
        then
          transferInstruction <-
            lift (SystemProgram_transfer authority feeRecipient feeAmountLamports) ;;
          ret (add transaction transferInstruction)
        else ret transaction) ;;
     let transaction := add transaction deployInstruction in
     log ("sending deploy tx for " ++ Js.showNat (length targets) ++ " target(s)...") ;;
     signature <- sendAndConfirmTransaction connection transaction [signer] ;;
     log ("deploy successful! signature: " ++ Js.slice0 16 signature ++ "...")
     end
     end)
    (fun e =>
       logs <- try_catch
                 (match matchSignature (Js.message e) with
                  | Some signature =>
                      fetched <- lift (getLogs connection signature) ;;
                      ret (Some fetched)
                  | None => ret None
                  end)
                 (fun logError =>
                    log ("error fetching logs: " ++ Js.message logError) ;;
                    ret None) ;;
       handleFatalError e logs)
  end.

(** *** Vocabulary of the properties *)

(** The round account of the current round is there and decodes with its
    total. *)
Definition roundReady (connection : Connection) (round : Z) : Prop :=
  exists info roundData total,
    getAccountInfo connection (getRoundPda round) = Js.Normal (Some info)
    /\ parseRound (data info) = Js.Normal roundData
    /\ total_deployed roundData = Some total.

(** The fetched round account does not decode as an initialized round: the
    decoder throws, or its result lacks the total. *)
Definition notInitialized (info : AccountInfo) : Prop :=
  match parseRound (data info) with
  | Js.Throw _ => True
  | Js.Normal roundData => total_deployed roundData = None
  end.

(** The miner progress a cycle works from: the decoded record of the
    authority's miner account, or [(0, 0)] when there is no such account. *)
Inductive minerProgress (connection : Connection) (authority : PublicKey)
  : Z -> Z -> Prop :=
| progress_absent :
    getAccountInfo connection (getMinerPda authority) = Js.Normal None ->
    minerProgress connection authority 0 0
| progress_record (info : AccountInfo) (m : MinerData) :
    getAccountInfo connection (getMinerPda authority) = Js.Normal (Some info) ->
    parseMiner (data info) = Js.Normal m ->
    minerProgress connection authority (round_id m) (checkpoint_id m).

(** The amounts of section 4.5, as the specification writes them. *)
Definition stakeLamports (state : State) : option Z :=
  Js.floorZ (customDeployAmount state / SOL_PER_LAMPORT)%float.

Definition feeLamports (state : State) (n : nat) : option Z :=
  Js.floorZ (customDeployAmount state * Js.ofLength n * 0.01 / SOL_PER_LAMPORT)%float.

(** The instructions of a deploy transaction, as the specification lists
    them. *)
Definition checkpointIx (signer : Keypair) (staleRound : Z) : Instruction :=
  TransactionInstruction
    [ mkMeta (publicKey signer) true true;
      mkMeta getBoardPda false false;
      mkMeta (getMinerPda (publicKey signer)) false true;
      mkMeta (getRoundPda staleRound) false true;
      mkMeta getTreasuryPda false true;
      mkMeta SYSTEM_PROGRAM_ID false false ]
    ORE_PROGRAM_ID [2%Z].

Definition feeIx (signer : Keypair) (fee : Z) : Instruction :=
  Transfer (publicKey signer) feeRecipient fee.

Definition deployIx (signer : Keypair) (round amount mask : Z) : Instruction :=
  TransactionInstruction
    [ mkMeta (publicKey signer) true true;
      mkMeta (publicKey signer) false true;
      mkMeta (getAutomationPda (publicKey signer)) false true;
      mkMeta getBoardPda false true;
      mkMeta (getMinerPda (publicKey signer)) false true;
      mkMeta (getRoundPda round) false true;
      mkMeta SYSTEM_PROGRAM_ID false false ]
    ORE_PROGRAM_ID
    (6%Z :: Buffer.le_bytes 8 amount ++ Buffer.le_bytes 4 mask)%list.

(** Dirty and eligible: unsettled, and older than the current round. *)
Definition dirtyEligible (minerRound minerCheckpoint current : Z) : bool :=
  negb (minerRound =? minerCheckpoint)%Z && (minerRound <? current)%Z.

Definition expectedTx
  (signer : Keypair) (current minerRound minerCheckpoint amount fee mask : Z)
  : Transaction :=
  ([SetComputeUnitLimit 750000; SetComputeUnitPrice 100000]
   ++ (if dirtyEligible minerRound minerCheckpoint current
       then [checkpointIx signer minerRound] else [])
   ++ (if (fee >? 0)%Z then [feeIx signer fee] else [])
   ++ [deployIx signer current amount mask])%list.

End Transactions.


(** ** A stand-in network

    Concrete collaborators on which the cycle can be run: labelled
    addresses, toy decoders (a miner account holds its two identifiers, a
    round account its total) and a connection that stores at most a round
    account and a miner account and answers every submission alike. *)

Module Demo.

Definition PublicKey_eqb (a b : PublicKey) : bool :=
  match a, b with
  | PublicKey_new x, PublicKey_new y => String.eqb x y
  end.

Definition ORE_PROGRAM_ID : PublicKey := PublicKey_new "ore-program".
Definition SYSTEM_PROGRAM_ID : PublicKey := PublicKey_new "system-program".
Definition SOL_PER_LAMPORT : float := 1e-9%float.
Definition getBoardPda : PublicKey := PublicKey_new "board".
Definition getTreasuryPda : PublicKey := PublicKey_new "treasury".
Definition getRoundPda (round : Z) : PublicKey := PublicKey_new ("round/" ++ Js.showZ round).

Definition getMinerPda (authority : PublicKey) : PublicKey :=
  match authority with
  | PublicKey_new a => PublicKey_new ("miner/" ++ a)
  end.

Definition getAutomationPda (authority : PublicKey) : PublicKey :=
  match authority with
  | PublicKey_new a => PublicKey_new ("automation/" ++ a)
  end.

Definition parseMiner (buf : Buffer.t) : Js.Completion MinerData :=
  match buf with
  | [r; c] => Js.Normal (mkMiner r c)
  | _ => Js.Throw (Js.mkError "Invalid miner account" None)
  end.

Definition parseRound (buf : Buffer.t) : Js.Completion RoundData :=
  match buf with
  | [] => Js.Throw (Js.mkError "Invalid round account" None)
  | [0%Z] => Js.Normal (mkRound None)
  | total :: _ => Js.Normal (mkRound (Some total))
  end.

Definition signer : Keypair := mkKeypair (PublicKey_new "authority").

Definition network
  (current : Z) (round miner : option Buffer.t) (outcome : Js.Completion string)
  : Connection :=
  mkConnection
    (fun address =>
       if PublicKey_eqb address (getRoundPda current)
       then Js.Normal (option_map mkAccountInfo round)
       else if PublicKey_eqb address (getMinerPda (publicKey signer))
       then Js.Normal (option_map mkAccountInfo miner)
       else Js.Normal None)
    (fun _ _ => outcome)
    (fun _ => Js.Normal []).

Definition sendDeployTx :=
  sendDeployTx ORE_PROGRAM_ID SYSTEM_PROGRAM_ID SOL_PER_LAMPORT getBoardPda
    getTreasuryPda getRoundPda getMinerPda getAutomationPda parseMiner parseRound.

Definition sendCheckpointTx :=
  sendCheckpointTx ORE_PROGRAM_ID SYSTEM_PROGRAM_ID getBoardPda getTreasuryPda
    getRoundPda getMinerPda.

(** Round 10 is open; the stake is 0.001 SOL on squares 1 and 25. *)
Definition state : State := mkState 10 0.001%float.
Definition targets : list Target := [mkTarget 1; mkTarget 25].
Definition confirmed : Js.Completion string := Js.Normal "5VERv8NMvzbJMEkV8xnrLkEaWRtSz9CosKDYjCJjBRnb".

(** The miner last deployed into round 8 and settled round 7; into round 10
    with round 9 settled; into round 9, settled. *)
Definition stale : Connection := network 10 (Some [7%Z]) (Some [8; 7]%Z) confirmed.
Definition current : Connection := network 10 (Some [7%Z]) (Some [10; 9]%Z) confirmed.
Definition clean : Connection := network 10 (Some [7%Z]) (Some [9; 9]%Z) confirmed.
Definition newcomer : Connection := network 10 (Some [7%Z]) None confirmed.

(** The round account is not there yet. *)
Definition roundless : Connection := network 10 None None confirmed.

(** A submission rejected with the program error of a settled checkpoint. *)
Definition alreadySettled : Js.Error :=
  Js.mkError "failed to send transaction: Transaction simulation failed"
    (Some ["Program log: Instruction: Checkpoint";
           "Program failed: custom program error: 0x1"]).

Definition rejecting : Connection :=
  network 10 (Some [7%Z]) (Some [8; 7]%Z) (Js.Throw alreadySettled).

(** The first transaction a run of the cycle submits over a connection. *)
Definition submitted (connection : Connection) : Transaction :=
  hd [] (sent (events (sendDeployTx state targets connection (Some signer)))).

End Demo.

(** * The scripts: closeAutomation.mjs and update.mjs

    A script acts on the console, the file system and child processes. Its
    runs are computations over the actions performed so far: what the
    file system answers may depend on them. An action records a call the
    script makes, whether or not the call succeeds: [Mkdir dir recursive]
    is [fs.mkdirSync(dir, { recursive })], which with [recursive] also
    makes the missing directories above [dir]; [WriteFile path body] is
    the piping of [body] into a write stream on [path]. *)

Inductive Action :=
| ConsoleLog (line : string)
| ConsoleError (line : string)
| SendTx (tx : Transaction) (signers : list Keypair)
| Mkdir (path : string) (recursive : bool)
| WriteFile (path body : string)
| Unlink (path : string)
| Exec (command : string)
| Spawn (command : string)
| Exit (code : Z).

Module Proc.

(** How a run ends: with the completion of the function, or with an
    exception raised where no [try] and no promise can catch it (an
    [error] event without a listener), which ends the process. *)
Inductive Outcome (A : Type) : Type :=
| Settled (c : Js.Completion A)
| Uncaught (e : Js.Error).
Arguments Settled {A} c.
Arguments Uncaught {A} e.

(** From the actions performed before to the actions added and the
    outcome. *)
Definition t (A : Type) : Type := list Action -> list Action * Outcome A.

Definition ret {A} (a : A) : t A := fun _ => ([], Settled (Js.Normal a)).

Definition bind {A B} (m : t A) (k : A -> t B) : t B :=
  fun past =>
    match m past with
    | (done, Settled (Js.Normal a)) =>
        let (more, r) := k a (past ++ done)%list in ((done ++ more)%list, r)
    | (done, Settled (Js.Throw e)) => (done, Settled (Js.Throw e))
    | (done, Uncaught e) => (done, Uncaught e)
    end.

Definition throw {A} (e : Js.Error) : t A := fun _ => ([], Settled (Js.Throw e)).

Definition lift {A} (c : Js.Completion A) : t A := fun _ => ([], Settled c).

(** [try { m } catch (e) { h e }], and [m.catch(h)] on a promise. *)
Definition try_catch {A} (m : t A) (h : Js.Error -> t A) : t A :=
  fun past =>
    match m past with
    | (done, Settled (Js.Normal a)) => (done, Settled (Js.Normal a))
    | (done, Settled (Js.Throw e)) =>
        let (more, r) := h e (past ++ done)%list in ((done ++ more)%list, r)
    | (done, Uncaught e) => (done, Uncaught e)
    end.

(** An action that cannot fail, and one whose outcome the system decides
    from what happened before. *)
Definition act (a : Action) : t unit := fun _ => ([a], Settled (Js.Normal tt)).

Definition attempt {A} (a : Action) (answer : list Action -> Js.Completion A) : t A :=
  fun past => ([a], Settled (answer past)).

(** An action whose failure is raised as an event nothing listens
    for. *)
Definition unguarded {A} (a : Action) (answer : list Action -> Js.Completion A) : t A :=
  fun past =>
    ([a], match answer past with
          | Js.Normal x => Settled (Js.Normal x)
          | Js.Throw e => Uncaught e
          end).

(** A question to the system that leaves no trace. *)
Definition ask {A} (answer : list Action -> A) : t A :=
  fun past => ([], Settled (Js.Normal (answer past))).

Definition actions {A} (m : t A) (past : list Action) : list Action := fst (m past).
Definition completion {A} (m : t A) (past : list Action) : Outcome A := snd (m past).

End Proc.

(** A completion is read as the outcome of a run that settled with it. *)
Coercion Proc.Settled : Js.Completion >-> Proc.Outcome.

Declare Scope proc_scope.
Delimit Scope proc_scope with proc.
Notation "x <- m ;; k" := (Proc.bind m (fun x => k))
  (at level 61, m at next level, right associativity) : proc_scope.
Notation "m ;; k" := (Proc.bind m (fun _ => k))
  (at level 61, right associativity) : proc_scope.

(** [for (const x of xs) body] and [xs.forEach(body)]. *)
Fixpoint forEach {A} (xs : list A) (body : A -> Proc.t unit) : Proc.t unit :=
  match xs with
  | [] => Proc.ret tt
  | x :: rest => (body x ;; forEach rest body)%proc
  end.

(** [console.log] of one text, and [console.error] of a label and a text
    (printed with a space in between). *)
Definition console_log (line : string) : Proc.t unit := Proc.act (ConsoleLog line).
Definition console_error (label text : string) : Proc.t unit :=
  Proc.act (ConsoleError (label ++ " " ++ text)).

(** [key.toBase58()] and [PublicKey.default]. *)
Definition toBase58 (key : PublicKey) : string :=
  match key with PublicKey_new text => text end.

Definition PublicKey_default : PublicKey :=
  PublicKey_new "11111111111111111111111111111111".

(** ** closeAutomation.mjs *)

Section CloseAutomation.

(** Exports of ./constants.mjs, ./solana.mjs and ./wallet.mjs: creating the
    connection and loading the signer may both throw. *)
Variables ORE_PROGRAM_ID SYSTEM_PROGRAM_ID : PublicKey.
Variables getAutomationPda getMinerPda : PublicKey -> PublicKey.
Variable initConnection : Js.Completion Connection.
Variable loadSigner : Connection -> Js.Completion Keypair.

#[local] Open Scope proc_scope.

Definition closeAutomation : Proc.t unit :=
  Proc.try_catch
    (connection <- Proc.lift initConnection ;;
     signer <- Proc.lift (loadSigner connection) ;;
     let authority := publicKey signer in
     console_log ("Loaded signer: " ++ toBase58 authority) ;;
     let automationPda := getAutomationPda authority in
     let minerPda := getMinerPda authority in
     let accounts :=
       [ mkMeta authority true true;
         mkMeta automationPda false true;
         mkMeta PublicKey_default false false;
         mkMeta minerPda false true;
         mkMeta SYSTEM_PROGRAM_ID false false ] in
     dataBuffer <- Proc.lift (Buffer.writeUInt8 (Buffer.alloc 41) 0 0) ;;
     let instruction := TransactionInstruction accounts ORE_PROGRAM_ID dataBuffer in
     let transaction := add [] instruction in
     console_log "Sending Close transaction..." ;;
     signature <- Proc.attempt (SendTx transaction [signer])
                    (fun _ => confirm connection transaction [signer]) ;;
     console_log (newline ++ "SUCCESS! Automation closed.") ;;
     console_log ("Signature: " ++ signature))
    (fun e =>
       console_error (newline ++ "SCRIPT FAILED:") (Js.message e) ;;
       match Js.logs e with
       | Some lines =>
           console_log "Logs:" ;;
           forEach lines console_log
       | None => Proc.ret tt
       end).

#[local] Close Scope proc_scope.

End CloseAutomation.

(** ** update.mjs *)

(** What [https.get] comes back with: a failure of the request, or a
    response with its status code and the chunks of its body. *)
Inductive HttpResult :=
| NetworkError (err : Js.Error)
| Response (statusCode : Z) (chunks : list string).

(** The documents the updater reads, at the shape it expects of them; a
    field is [None] where the document lacks it. *)
Record RepoInfo := mkRepoInfo { default_branch : string }.
Record Package := mkPackage { version : option string }.
Record Contents := mkContents { content : option string }.
Record Item := mkItem { path : string; type : string }.
Record TreeData := mkTreeData { tree : option (list Item) }.

Definition REPO_OWNER : string := "Radiants-DAO".
Definition REPO_NAME : string := "lodestar-cli".
Definition GITHUB_API_BASE : string := "https://api.github.com".
Definition RAW_CONTENT_BASE : string := "https://raw.githubusercontent.com".
Definition IGNORE_LIST : list string :=
  [".git"; "node_modules"; ".env"; "update.js"; "update.mjs"].

(** [text.split('.')]. *)
Fixpoint splitDots (text : string) : list string :=
  match text with
  | EmptyString => [EmptyString]
  | String c rest =>
      if Ascii.eqb c "."%char
      then EmptyString :: splitDots rest
      else match splitDots rest with
           | first :: others => String c first :: others
           | [] => [String c EmptyString]
           end
  end.

(** [x || 0] on an array element: a missing element, NaN and both zeros
    give 0. *)
Definition orZero (x : option float) : float :=
  match x with
  | Some v => if PrimFloat.is_nan v || PrimFloat.is_zero v then 0%float else v
  | None => 0%float
  end.

(** The loop of [compareVersions], from index [i], with [fuel] turns
    left. *)
Fixpoint compareFrom (v1 v2 : list float) (i fuel : nat) : bool :=
  match fuel with
  | O => false
  | S turns =>
      let num1 := orZero (nth_error v1 i) in
      let num2 := orZero (nth_error v2 i) in
      if (num1 <? num2)%float then true
      else if (num2 <? num1)%float then false
      else compareFrom v1 v2 (S i) turns
  end.

Section Updater.

(** The language's conversion of a text to a number. *)
Variable Number : string -> float.

(** Compares two semantic version strings: true if remote is newer than
    local. *)
Definition compareVersions (local remote : string) : bool :=
  let v1 := map Number (splitDots local) in
  let v2 := map Number (splitDots remote) in
  compareFrom v1 v2 0 (Nat.max (length v1) (length v2)).

(** The host: the directory of the script, Node's [path] functions, the
    network, the file system and the shell. *)
Variable __dirname : string.
Variable path_join : string -> string -> string.
Variable path_dirname : string -> string.
Variable https_get : string -> HttpResult.
Variable existsSync : list Action -> string -> bool.
Variable mkdirSync : list Action -> string -> Js.Completion unit.
Variable readFileSync : list Action -> string -> Js.Completion string.
Variable execSync : list Action -> string -> Js.Completion unit.

(** [fs.createWriteStream(path)] with a response piped into it: the
    stream finishes, or emits an error. *)
Variable createWriteStream : list Action -> string -> Js.Completion unit.

(** [JSON.parse] read at each of the shapes above ([None]: the document is
    [null]), and the text of a base-64 string. *)
Variable parseRepoInfo : string -> Js.Completion (option RepoInfo).
Variable parsePackage : string -> Js.Completion (option Package).
Variable parseContents : string -> Js.Completion (option Contents).
Variable parseTree : string -> Js.Completion (option TreeData).
Variable base64Text : string -> string.

#[local] Open Scope proc_scope.

Definition LOCAL_PACKAGE_PATH : string := path_join __dirname "package.json".

(** Fetches and parses JSON: [None] on a 404. *)
Definition fetchJson {A} (parse : string -> Js.Completion (option A)) (url : string)
  : Proc.t (option A) :=
  match https_get url with
  | NetworkError err => Proc.throw err
  | Response statusCode chunks =>
      if negb (statusCode =? 200)%Z
      then
        if (statusCode =? 404)%Z
        then Proc.ret None
        else Proc.throw
               (Js.mkError ("Request failed: " ++ Js.showZ statusCode ++ " " ++ url) None)
      else Proc.lift (parse (String.concat "" chunks))
  end.

(** Downloads a file from a URL and writes it to the local filesystem.
    The write stream has no listener for its errors: a write that fails
    is an uncaught exception, and the promise is never settled. *)
Definition downloadFile (url destPath : string) : Proc.t unit :=
  match https_get url with
  | NetworkError err =>
      Proc.act (Unlink destPath) ;;
      Proc.throw err
  | Response statusCode chunks =>
      if negb (statusCode =? 200)%Z
      then Proc.throw
             (Js.mkError ("Failed to download " ++ url ++ ": " ++ Js.showZ statusCode) None)
      else Proc.unguarded (WriteFile destPath (String.concat "" chunks))
             (fun past => createWriteStream past destPath)
  end.

(** Spawns the main application process. (What the child process brings
    comes after the run: the updater exits with the application's code
    once the application closes.) *)
Definition restartApp : Proc.t unit :=
  console_log "Starting application. . ." ;;
  Proc.act (Spawn "npm run miner").

(** The ignore test of the loop. *)
Definition ignored (item : Item) : bool :=
  existsb (fun name => String.prefix name (path item)) IGNORE_LIST.

(** [fs.mkdirSync(dir, { recursive: true })] unless [dir] exists. *)
Definition ensureDir (dir : string) : Proc.t unit :=
  there <- Proc.ask (fun past => existsSync past dir) ;;
  if negb there
  then Proc.attempt (Mkdir dir true) (fun past => mkdirSync past dir)
  else Proc.ret tt.

(** Performs the actual update by fetching the file tree and overwriting
    local files. *)
Definition performUpdate (branch : string) : Proc.t unit :=
  let treeUrl :=
    GITHUB_API_BASE ++ "/repos/" ++ REPO_OWNER ++ "/" ++ REPO_NAME
    ++ "/git/trees/" ++ branch ++ "?recursive=1" in
  treeData <- fetchJson parseTree treeUrl ;;
  match match treeData with Some data => tree data | None => None end with
  | None => Proc.throw (Js.mkError "Failed to fetch file tree." None)
  | Some items =>
      console_log ("Found " ++ Js.showNat (length items) ++ " files to process.") ;;
      forEach items
        (fun item =>
           if ignored item then Proc.ret tt
           else
             let localPath := path_join __dirname (path item) in
             if String.eqb (type item) "tree"
             then ensureDir localPath
             else if String.eqb (type item) "blob"
             then
               let downloadUrl :=
                 RAW_CONTENT_BASE ++ "/" ++ REPO_OWNER ++ "/" ++ REPO_NAME
                 ++ "/" ++ branch ++ "/" ++ path item in
               console_log ("Downloading: " ++ path item) ;;
               let parentDir := path_dirname localPath in
               ensureDir parentDir ;;
               downloadFile downloadUrl localPath
             else Proc.ret tt) ;;
      console_log "Update files downloaded successfully." ;;
      console_log "Updating dependencies..." ;;
      Proc.attempt (Exec "npm install") (fun past => execSync past "npm install") ;;
      restartApp
  end.

(** [`${version}`] in a log line. *)
Definition showVersion (v : option string) : string :=
  match v with
  | Some text => text
  | None => "undefined"
  end.

(** [compareVersions] on what the two documents hold: a missing version
    has no [split]. *)
Definition compareVersionFields (local remote : option string) : Js.Completion bool :=
  match local, remote with
  | Some l, Some r => Js.Normal (compareVersions l r)
  | _, _ =>
      Js.Throw (Js.mkError "Cannot read properties of undefined (reading 'split')" None)
  end.

(** Main entry point: checks GitHub for a newer version. *)
Definition checkForUpdate : Proc.t unit :=
  console_log "Checking for updates..." ;;
  repoInfo <- fetchJson parseRepoInfo
                (GITHUB_API_BASE ++ "/repos/" ++ REPO_OWNER ++ "/" ++ REPO_NAME) ;;
  match repoInfo with
  | None => Proc.throw (Js.mkError "Repository not found or private." None)
  | Some repoInfo =>
  let defaultBranch := default_branch repoInfo in
  let remotePackageUrl :=
    RAW_CONTENT_BASE ++ "/" ++ REPO_OWNER ++ "/" ++ REPO_NAME
    ++ "/" ++ defaultBranch ++ "/package.json" in
  remotePackage <- fetchJson parsePackage remotePackageUrl ;;
  match remotePackage with
  | None =>
      apiPkg <- fetchJson parseContents
                  (GITHUB_API_BASE ++ "/repos/" ++ REPO_OWNER ++ "/" ++ REPO_NAME
                   ++ "/contents/package.json?ref=" ++ defaultBranch) ;;
      match match apiPkg with Some pkg => content pkg | None => None end with
      | Some (String c encoded) =>
          Proc.lift (parsePackage (base64Text (String c encoded))) ;;
          Proc.throw (Js.mkError "Cannot convert undefined or null to object" None)
      | _ => Proc.ret tt
      end
  | Some _ => Proc.ret tt
  end ;;
  localText <- Proc.ask (fun past => readFileSync past LOCAL_PACKAGE_PATH) ;;
  localText <- Proc.lift localText ;;
  localPackage <- Proc.lift (parsePackage localText) ;;
  match localPackage with
  | None => Proc.throw (Js.mkError "Cannot read properties of null (reading 'version')" None)
  | Some localPackage =>
  console_log ("Local version: " ++ showVersion (version localPackage)) ;;
  match remotePackage with
  | None => Proc.throw (Js.mkError "Cannot read properties of null (reading 'version')" None)
  | Some remotePackage =>
  console_log ("Remote version: " ++ showVersion (version remotePackage)) ;;
  newer <- Proc.lift (compareVersionFields (version localPackage) (version remotePackage)) ;;
  if newer
  then
    console_log "New version found! Starting update process. . ." ;;
    performUpdate defaultBranch
  else
    console_log "App is up to date." ;;
    restartApp
  end
  end
  end.

(** The script: a failed check is reported and ends the process with
    code 1. *)
Definition main : Proc.t unit :=
  Proc.try_catch checkForUpdate
    (fun err =>
       console_error "Update failed:" (Js.message err) ;;
       Proc.act (Exit 1)).

#[local] Close Scope proc_scope.

End Updater.

(** ** Vocabulary of the further properties *)

(** No newline among the characters of a text. *)
Fixpoint singleLine (s : string) : bool :=
  match s with
  | EmptyString => true
  | String c rest => negb (Ascii.eqb c (ascii_of_nat 10)) && singleLine rest
  end.

(** Letters and digits only. *)
Fixpoint allAlnum (s : string) : bool :=
  match s with
  | EmptyString => true
  | String c rest => isAlnum c && allAlnum rest
  end.

(** The match of the signature pattern at the very start of a text. *)
Definition signatureHere (s : string) : option string :=
  match stripPrefix "Transaction " s with
  | Some tail =>
      let run := alnumRun 88 tail in
      if (87 <=? String.length run)%nat then Some run else None
  | None => None
  end.

#[local] Close Scope string_scope.

(** ** Vocabulary of the order of versions *)

(** A number that is not NaN, placed on a line: its class, then exponent
    and mantissa. *)
Definition floatKey (x : float) : Z * Z * Z :=
  match Prim2SF x with
  | S754_infinity true => (0, 0, 0)
  | S754_finite true m e => (1, - e, Z.neg m)
  | S754_zero _ => (2, 0, 0)
  | S754_nan => (2, 0, 0)
  | S754_finite false m e => (3, e, Z.pos m)
  | S754_infinity false => (4, 0, 0)
  end.

Definition keyLt (k1 k2 : Z * Z * Z) : Prop :=
  let '(a1, b1, c1) := k1 in
  let '(a2, b2, c2) := k2 in
  a1 < a2 \/ (a1 = a2 /\ (b1 < b2 \/ (b1 = b2 /\ c1 < c2))).

(** The place on the line of component [i] of a version, absent components
    and NaN counting as zero. *)
Definition partKey (v : list float) (i : nat) : Z * Z * Z :=
  floatKey (orZero (nth_error v i)).

(** The first component in which two versions differ is larger in the
    second. *)
Definition newer (v1 v2 : list float) : Prop :=
  exists j,
    (forall t, (t < j)%nat -> partKey v1 t = partKey v2 t)
    /\ keyLt (partKey v1 j) (partKey v2 j).

(** ** Vocabulary of the updater *)

(** The files a list of actions writes, in order. *)
Definition writes (acts : list Action) : list string :=
  flat_map (fun a => match a with WriteFile dest _ => [dest] | _ => [] end) acts.

(** A file of the tree that the update downloads. *)
Definition wanted (item : Item) : bool :=
  negb (ignored item) && String.eqb (type item) "blob".

(** One turn of the loop of [performUpdate]. *)
Definition updateTurn
  (__dirname : string) (path_join : string -> string -> string)
  (path_dirname : string -> string) (https_get : string -> HttpResult)
  (existsSync : list Action -> string -> bool)
  (mkdirSync createWriteStream : list Action -> string -> Js.Completion unit)
  (branch : string) (item : Item) : Proc.t unit :=
  if ignored item then Proc.ret tt
  else
    let localPath := path_join __dirname (path item) in
    if String.eqb (type item) "tree"
    then ensureDir existsSync mkdirSync localPath
    else if String.eqb (type item) "blob"
    then
      (console_log ("Downloading: " ++ path item) ;;
       ensureDir existsSync mkdirSync (path_dirname localPath) ;;
       downloadFile https_get createWriteStream
         (RAW_CONTENT_BASE ++ "/" ++ REPO_OWNER ++ "/" ++ REPO_NAME
          ++ "/" ++ branch ++ "/" ++ path item) localPath)%proc
    else Proc.ret tt.



(** What a run that restarts the application ends with. *)
Definition restart : list Action :=
  [ConsoleLog "Starting application. . ."; Spawn "npm run miner"].

(** ** Vocabulary of closeAutomation.mjs *)

(** What closeAutomation.mjs prints for a caught error. *)
Definition failureReport (e : Js.Error) : list Action :=
  ConsoleError (newline ++ "SCRIPT FAILED: " ++ Js.message e)
  :: match Js.logs e with
     | Some lines => ConsoleLog "Logs:" :: map ConsoleLog lines
     | None => []
     end.

Definition isSendTx (a : Action) : bool :=
  match a with
  | SendTx _ _ => true
  | _ => false
  end.


(** A run that died on a write: its last action is the write, which the
    file system refused. *)
Definition failedWrite
  (createWriteStream : list Action -> string -> Js.Completion unit)
  (past acts : list Action) (e : Js.Error) : Prop :=
  exists before dest body,
    acts = before ++ [WriteFile dest body]
    /\ createWriteStream (past ++ before) dest = Js.Throw e.


#[local] Open Scope string_scope.

(** ** Stand-ins for the examples of the scripts *)

Module Host.

(** [Number] on the texts the examples put between the dots of a
    version: a run of decimal digits is the integer it writes, rounded to
    the nearest binary64; the empty text is zero; a text with any other
    character (a letter, as in the examples) is NaN. *)
Definition digit (c : ascii) : option Z :=
  let n := Z.of_nat (nat_of_ascii c) in
  if ((48 <=? n) && (n <=? 57))%Z then Some (n - 48)%Z else None.

Fixpoint decimal (acc : Z) (text : string) : option Z :=
  match text with
  | EmptyString => Some acc
  | String c rest =>
      match digit c with
      | Some d => decimal (10 * acc + d)%Z rest
      | None => None
      end
  end.

Definition Number (text : string) : float :=
  match decimal 0%Z text with
  | Some z => SF2Prim (binary_normalize prec emax z 0 false)
  | None => nan
  end.

(** The script sits in /opt/lodestar. Paths here are absolute, without
    dots or doubled slashes: joining puts a slash in between, and the
    directory of a path is what comes before its last slash (the root for
    a path right below it). *)
Definition __dirname : string := "/opt/lodestar".

Definition path_join (a b : string) : string := a ++ "/" ++ b.

Fixpoint hasSlash (text : string) : bool :=
  match text with
  | EmptyString => false
  | String c rest => Ascii.eqb c "/"%char || hasSlash rest
  end.

Fixpoint beforeLastSlash (text : string) : string :=
  match text with
  | EmptyString => EmptyString
  | String c rest =>
      if hasSlash rest then String c (beforeLastSlash rest) else EmptyString
  end.

Definition path_dirname (text : string) : string :=
  match beforeLastSlash text with
  | EmptyString => "/"
  | dir => dir
  end.

(** [dir] is [file] or lies above it. *)
Definition reaches (dir file : string) : bool :=
  String.eqb dir file || String.eqb dir "/" || String.prefix (dir ++ "/") file.

(** A server that knows the URLs of a table and answers 404 to the
    rest. *)
Definition serve (table : list (string * HttpResult)) (url : string) : HttpResult :=
  match find (fun entry => String.eqb (fst entry) url) table with
  | Some entry => snd entry
  | None => Response 404 []
  end.

(** A directory exists when it leads to the script's own or to one made
    earlier in the run; making one, writing a file and running a command
    succeed; the local package.json is the only file read. *)
Definition existsSync (past : list Action) (dir : string) : bool :=
  reaches dir __dirname
  || existsb (fun a => match a with
                       | Mkdir made true => reaches dir made
                       | Mkdir made false => String.eqb dir made
                       | _ => false
                       end) past.

Definition createWriteStream (past : list Action) (file : string) : Js.Completion unit :=
  Js.Normal tt.

(** A disk without room: every write fails. *)
Definition fullDisk (past : list Action) (file : string) : Js.Completion unit :=
  Js.Throw (Js.mkError "ENOSPC: no space left on device, write" None).

Definition mkdirSync (past : list Action) (dir : string) : Js.Completion unit :=
  Js.Normal tt.

Definition execSync (past : list Action) (command : string) : Js.Completion unit :=
  Js.Normal tt.

Definition readFileSync (version : string) (past : list Action) (file : string)
  : Js.Completion string :=
  if String.eqb file (path_join __dirname "package.json")
  then Js.Normal version
  else Js.Throw (Js.mkError ("ENOENT: no such file or directory, open '" ++ file ++ "'") None).

(** The tree of the repository. *)
Definition items : list Item :=
  [ mkItem ".gitignore" "blob";
    mkItem ".github" "tree";
    mkItem "src" "tree";
    mkItem "src/app.mjs" "blob";
    mkItem "update.mjs" "blob";
    mkItem "package.json" "blob" ].

(** The documents, each reduced to what the updater reads of it: the
    repository document is its default branch, a package.json is its
    version, and the tree document is the word tree. *)
Definition parseRepoInfo (text : string) : Js.Completion (option RepoInfo) :=
  Js.Normal (Some (mkRepoInfo text)).

Definition parsePackage (text : string) : Js.Completion (option Package) :=
  Js.Normal (Some (mkPackage (Some text))).

Definition parseContents (text : string) : Js.Completion (option Contents) :=
  Js.Normal None.

Definition parseTree (text : string) : Js.Completion (option TreeData) :=
  if String.eqb text "tree"
  then Js.Normal (Some (mkTreeData (Some items)))
  else Js.Throw (Js.mkError "Unexpected token in JSON" None).

Definition base64Text (text : string) : string := text.

(** The repository as published, at version 1.0.1 on branch main; and a
    repository whose files cannot be read. *)
Definition published : list (string * HttpResult) :=
  [ ("https://api.github.com/repos/Radiants-DAO/lodestar-cli", Response 200 ["ma"; "in"]);
    ("https://raw.githubusercontent.com/Radiants-DAO/lodestar-cli/main/package.json",
     Response 200 ["1.0.1"]);
    ("https://api.github.com/repos/Radiants-DAO/lodestar-cli/git/trees/main?recursive=1",
     Response 200 ["tree"]);
    ("https://raw.githubusercontent.com/Radiants-DAO/lodestar-cli/main/src/app.mjs",
     Response 200 ["console.log('lodestar')"]) ].

Definition unreadable : list (string * HttpResult) :=
  [ ("https://api.github.com/repos/Radiants-DAO/lodestar-cli", Response 200 ["main"]) ].

Definition performUpdate (table : list (string * HttpResult)) :=
  performUpdate __dirname path_join path_dirname (serve table) existsSync mkdirSync
    execSync createWriteStream parseTree.

Definition checkForUpdate (table : list (string * HttpResult)) (version : string) :=
  checkForUpdate Number __dirname path_join path_dirname (serve table) existsSync
    mkdirSync (readFileSync version) execSync createWriteStream parseRepoInfo
    parsePackage parseContents parseTree base64Text.

(** The whole script, on a disk given. *)
Definition main
  (disk : list Action -> string -> Js.Completion unit)
  (table : list (string * HttpResult)) (version : string) :=
  main Number __dirname path_join path_dirname (serve table) existsSync
    mkdirSync (readFileSync version) execSync disk parseRepoInfo
    parsePackage parseContents parseTree base64Text.

End Host.

(** ** Stand-ins for failed submissions *)

Module Failures.

(** A signature of 88 characters, and the logs the network keeps for
    it. *)
Definition signature : string :=
  "5VERv8NMvzbJMEkV8xnrLkEaWRtSz9CosKDYjCJjBRnb5VERv8NMvzbJMEkV8xnrLkEaWRtSz9CosKDYjCJjBRnb".

Definition kept : list string :=
  ["Program log: Instruction: Deploy"; "Program failed: insufficient funds"].

(** The network of [Demo.stale], with the outcome of a submission
    given. *)
Definition network (outcome : Js.Completion string) : Connection :=
  mkConnection
    (getAccountInfo Demo.stale)
    (fun _ _ => outcome)
    (fun asked =>
       if String.eqb asked signature
       then Js.Normal kept
       else Js.Throw (Js.mkError "Invalid param: WrongSize" None)).

(** A submission that landed and failed on chain. *)
Definition landed : Js.Error :=
  Js.mkError ("Transaction " ++ signature ++ " resulted in an error.") None.

(** A checkpoint rejected with another program error, whose code starts
    like the marker. *)
Definition lookalike : Js.Error :=
  Js.mkError "failed to send transaction: Transaction simulation failed"
    (Some ["Program log: Instruction: Checkpoint";
           "Program failed: custom program error: 0x1a"]).

End Failures.


(** * Properties *)

#[local] Close Scope string_scope.
#[local] Open Scope Z_scope.

(** ** The 32-bit operators on small masks *)

Lemma toInt32_small x : - 2 ^ 31 <= x < 2 ^ 31 -> Js.toInt32 x = x.
Proof.
  intros Hx. unfold Js.toInt32.
  rewrite Z.mod_small; lia.
Qed.

Lemma pow2_lt_25 i : 0 <= i < 25 -> 0 < 2 ^ i < 2 ^ 25.
Proof.
  intros Hi. split.
  - apply Z.pow_pos_nonneg; lia.
  - apply Z.pow_lt_mono_r; lia.
Qed.

Lemma shl_one i : 0 <= i < 25 -> Js.shl 1 i = 2 ^ i.
Proof.
  intros Hi. unfold Js.shl.
  rewrite (toInt32_small 1) by lia.
  rewrite (Z.mod_small i 32) by lia.
  rewrite Z.shiftl_1_l.
  apply toInt32_small. pose proof (pow2_lt_25 i Hi). lia.
Qed.

Lemma lor_below a b n :
  0 <= n -> 0 <= a < 2 ^ n -> 0 <= b < 2 ^ n -> 0 <= Z.lor a b < 2 ^ n.
Proof.
  intros Hn Ha Hb. split.
  - apply Z.lor_nonneg; lia.
  - destruct (Z.eq_dec a 0) as [->|Na]; [rewrite Z.lor_0_l; lia|].
    destruct (Z.eq_dec b 0) as [->|Nb]; [rewrite Z.lor_0_r; lia|].
    assert (Hpos : 0 < Z.lor a b).
    { assert (0 <= Z.lor a b) by (apply Z.lor_nonneg; lia).
      assert (Z.lor a b <> 0) by (rewrite Z.lor_eq_0_iff; tauto). lia. }
    apply Z.log2_lt_pow2; [exact Hpos|].
    rewrite Z.log2_lor by lia.
    apply Z.max_lub_lt; apply Z.log2_lt_pow2; lia.
Qed.

Lemma bor_small a b :
  0 <= a < 2 ^ 25 -> 0 <= b < 2 ^ 25 -> Js.bor a b = Z.lor a b.
Proof.
  intros Ha Hb. unfold Js.bor.
  rewrite (toInt32_small a), (toInt32_small b) by lia.
  apply toInt32_small.
  pose proof (lor_below a b 25 ltac:(lia) Ha Hb). lia.
Qed.

Lemma maskStep_bits mask t :
  0 <= mask < 2 ^ 25 ->
  0 <= maskStep mask t < 2 ^ 25
  /\ forall i, 0 <= i ->
       Z.testbit (maskStep mask t) i
       = Z.testbit mask i || (inRange t && (id t - 1 =? i)).
Proof.
  intros Hm. unfold maskStep, inRange.
  destruct ((0 <=? id t - 1) && (id t - 1 <? 25)) eqn:E.
  - apply andb_true_iff in E as [E1 E2].
    apply Z.leb_le in E1. apply Z.ltb_lt in E2.
    assert (Hi : 0 <= id t - 1 < 25) by lia.
    rewrite shl_one by exact Hi.
    pose proof (pow2_lt_25 _ Hi) as Hp.
    rewrite bor_small by lia.
    split; [apply lor_below; lia|].
    intros i Hi0. rewrite Z.lor_spec. f_equal.
    rewrite Z.pow2_bits_eqb by lia. reflexivity.
  - split; [exact Hm|]. intros i _. now rewrite orb_false_r.
Qed.

Lemma fold_maskStep_bits targets : forall mask,
  0 <= mask < 2 ^ 25 ->
  0 <= fold_left maskStep targets mask < 2 ^ 25
  /\ forall i, 0 <= i ->
       Z.testbit (fold_left maskStep targets mask) i
       = Z.testbit mask i || existsb (fun t => inRange t && (id t - 1 =? i)) targets.
Proof.
  induction targets as [|t ts IH]; intros mask Hm; simpl.
  - split; [exact Hm|]. intros i _. now rewrite orb_false_r.
  - destruct (maskStep_bits mask t Hm) as [Hb Hbits].
    destruct (IH _ Hb) as [Hb' Hbits'].
    split; [exact Hb'|]. intros i Hi.
    rewrite Hbits', Hbits by exact Hi. now rewrite orb_assoc.
Qed.

Lemma createSquaresMask_fold targets :
  createSquaresMask targets = fold_left maskStep targets 0.
Proof. reflexivity. Qed.

Lemma createSquaresMask_range targets : 0 <= createSquaresMask targets < 2 ^ 25.
Proof.
  rewrite createSquaresMask_fold.
  apply fold_maskStep_bits. lia.
Qed.

Lemma createSquaresMask_testbit targets i :
  0 <= i ->
  Z.testbit (createSquaresMask targets) i
  = existsb (fun t => inRange t && (id t - 1 =? i)) targets.
Proof.
  intros Hi. rewrite createSquaresMask_fold.
  destruct (fold_maskStep_bits targets 0 ltac:(lia)) as [_ H].
  rewrite H by exact Hi. now rewrite Z.bits_0.
Qed.

Lemma createSquaresMask_bit targets k :
  Z.testbit (createSquaresMask targets) (k - 1) = true
  <-> selects targets k /\ 1 <= k <= 25.
Proof.
  destruct (Z.lt_ge_cases (k - 1) 0) as [Hneg|Hpos].
  - rewrite Z.testbit_neg_r by exact Hneg. split; [discriminate|lia].
  - rewrite createSquaresMask_testbit by exact Hpos.
    rewrite existsb_exists. unfold selects, inRange. split.
    + intros (t & Hin & Ht).
      apply andb_true_iff in Ht as [Hr He].
      apply andb_true_iff in Hr as [H1 H2].
      apply Z.leb_le in H1. apply Z.ltb_lt in H2. apply Z.eqb_eq in He.
      split; [exists t; split; [exact Hin|lia]|lia].
    + intros [(t & Hin & Ht) Hk]. exists t. split; [exact Hin|].
      subst k. rewrite Z.eqb_refl, andb_true_r.
      apply andb_true_iff. split; [apply Z.leb_le|apply Z.ltb_lt]; lia.
Qed.

Lemma createSquaresMask_filter targets :
  createSquaresMask targets = createSquaresMask (filter inRange targets).
Proof.
  apply Z.bits_inj'. intros i Hi.
  rewrite !createSquaresMask_testbit by exact Hi.
  induction targets as [|t ts IH]; [reflexivity|]. simpl.
  destruct (inRange t) eqn:E; simpl; rewrite ?E; simpl; now rewrite IH.
Qed.

Lemma createSquaresMask_perm targets targets' :
  Permutation targets targets' ->
  createSquaresMask targets' = createSquaresMask targets.
Proof.
  intros HP. apply Z.bits_inj'. intros i Hi.
  rewrite !createSquaresMask_testbit by exact Hi.
  apply eq_true_iff_eq. rewrite !existsb_exists.
  split; intros (t & Hin & Ht); exists t; split; try exact Ht.
  - eapply Permutation_in; [apply Permutation_sym; exact HP|exact Hin].
  - eapply Permutation_in; [exact HP|exact Hin].
Qed.

Lemma createSquaresMask_popcount targets :
  NoDup (map id targets) ->
  Forall (fun t => 1 <= id t <= 25) targets ->
  popcount (createSquaresMask targets) = length targets.
Proof.
  intros Hnd Hall. unfold popcount.
  rewrite <- (length_map (fun t => Z.to_nat (id t - 1)) targets).
  apply Permutation_length. apply NoDup_Permutation.
  - apply NoDup_filter, seq_NoDup.
  - clear - Hnd Hall. induction targets as [|t ts IH]; simpl; [constructor|].
    inversion Hnd as [|? ? Hnot Hnd']; subst.
    inversion Hall as [|? ? Ht Hall']; subst.
    constructor; [|apply IH; assumption].
    intros Hin. apply Hnot. apply in_map_iff in Hin as (u & Hu & Hin).
    apply in_map_iff. exists u. split; [|exact Hin].
    rewrite Forall_forall in Hall'. specialize (Hall' u Hin). lia.
  - intros n. rewrite filter_In, in_seq, in_map_iff.
    rewrite Forall_forall in Hall. split.
    + intros [Hn Hbit].
      replace (Z.of_nat n) with (Z.of_nat n + 1 - 1) in Hbit by lia.
      apply createSquaresMask_bit in Hbit as [(t & Hin & Ht) _].
      exists t. split; [lia|exact Hin].
    + intros (t & Ht & Hin). specialize (Hall t Hin). split; [lia|].
      subst n. rewrite Z2Nat.id by lia.
      apply createSquaresMask_bit. split; [exists t; auto|lia].
Qed.

Lemma mask_fits targets : 0 <= createSquaresMask targets < 2 ^ 32.
Proof.
  pose proof (createSquaresMask_range targets) as H.
  assert (2 ^ 25 < 2 ^ 32) by (apply Z.pow_lt_mono_r; lia). lia.
Qed.

(** ** Buffers and amounts *)

Lemma BigInt_floor_Normal x z : Js.BigInt_floor x = Js.Normal z <-> Js.floorZ x = Some z.
Proof.
  unfold Js.BigInt_floor. destruct (Js.floorZ x); split; congruence.
Qed.

Lemma checkpoint_write :
  Buffer.write_le 1 (Buffer.alloc 1) 2 0 = Js.Normal [2].
Proof. reflexivity. Qed.

Lemma deploy_write_opcode :
  Buffer.write_le 1 (Buffer.alloc 13) 6 0
  = Js.Normal [6; 0; 0; 0; 0; 0; 0; 0; 0; 0; 0; 0; 0].
Proof. reflexivity. Qed.

Lemma deploy_write_amount amt :
  Buffer.write_le 8 [6; 0; 0; 0; 0; 0; 0; 0; 0; 0; 0; 0; 0] amt 1
  = if (0 <=? amt) && (amt <? 2 ^ 64)
    then Js.Normal (6 :: Buffer.le_bytes 8 amt ++ [0; 0; 0; 0])
    else Js.Throw (Js.RangeError "ERR_OUT_OF_RANGE").
Proof.
  unfold Buffer.write_le.
  change (2 ^ (8 * Z.of_nat 8)) with (2 ^ 64).
  destruct ((0 <=? amt) && (amt <? 2 ^ 64)); reflexivity.
Qed.

Lemma deploy_write_mask amt mask :
  0 <= mask < 2 ^ 32 ->
  Buffer.write_le 4 (6 :: Buffer.le_bytes 8 amt ++ [0; 0; 0; 0]) mask 9
  = Js.Normal (6 :: Buffer.le_bytes 8 amt ++ Buffer.le_bytes 4 mask).
Proof.
  intros [H1 H2]. unfold Buffer.write_le.
  change (2 ^ (8 * Z.of_nat 4)) with (2 ^ 32).
  apply Z.leb_le in H1. apply Z.ltb_lt in H2. rewrite H1, H2.
  reflexivity.
Qed.

Lemma floor_nonneg_trunc x z : Js.floorZ x = Some z -> 0 <= z -> Js.truncZ x = Some z.
Proof.
  unfold Js.floorZ, Js.truncZ.
  destruct (Prim2SF x) as [s| s | |s m e]; try discriminate; [auto|].
  destruct (0 <=? e) eqn:Ee; [auto|].
  apply Z.leb_gt in Ee.
  assert (Hp : 0 < 2 ^ (- e)) by (apply Z.pow_pos_nonneg; lia).
  intros [= <-] Hz. f_equal.
  destruct s.
  - exfalso. assert (Z.neg m / 2 ^ (- e) < 0); [|lia].
    apply Z.div_lt_upper_bound; [exact Hp|]. lia.
  - apply Z.quot_div_nonneg; lia.
Qed.

Lemma le_value_le_bytes n : forall v,
  Buffer.le_value (Buffer.le_bytes n v) = v mod 256 ^ Z.of_nat n.
Proof.
  induction n as [|k IH]; intros v.
  - simpl. now rewrite Z.mod_1_r.
  - cbn [Buffer.le_bytes Buffer.le_value]. rewrite IH.
    rewrite Nat2Z.inj_succ, Z.pow_succ_r by lia.
    rewrite Z.rem_mul_r by (try apply Z.pow_pos_nonneg; lia). reflexivity.
Qed.

Lemma le_bytes_range n : forall v, Forall (fun b => 0 <= b < 256) (Buffer.le_bytes n v).
Proof.
  induction n as [|k IH]; intros v; simpl; constructor.
  - apply Z.mod_pos_bound. lia.
  - apply IH.
Qed.

(** ** Texts *)

Lemma prefix_iff (p s : string) :
  String.prefix p s = true <-> exists b, s = (p ++ b)%string.
Proof.
  revert s. induction p as [|c p IH]; intros s.
  - split; [intros _; now exists s|intros _; destruct s; reflexivity].
  - destruct s as [|d s]; [split; [discriminate|intros [b Hb]; discriminate]|].
    cbn [String.prefix String.append].
    destruct (ascii_dec c d) as [->|Hcd].
    + rewrite IH. split; intros [b Hb]; exists b; [now rewrite Hb|now injection Hb].
    + split; [discriminate|]. intros [b Hb]. injection Hb as Hc _. congruence.
Qed.

Lemma includes_iff (s needle : string) :
  Js.includes s needle = true <-> exists a b, s = (a ++ needle ++ b)%string.
Proof.
  induction s as [|c s IH]; cbn [Js.includes].
  - rewrite orb_false_r, prefix_iff. split.
    + intros [b Hb]. now exists EmptyString, b.
    + intros (a & b & Hab). destruct a; [now exists b|discriminate].
  - rewrite orb_true_iff, prefix_iff, IH. split.
    + intros [[b Hb]|(a & b & Hab)].
      * now exists EmptyString, b.
      * exists (String c a), b. simpl. now rewrite Hab.
    + intros (a & b & Hab). destruct a as [|d a].
      * left. now exists b.
      * right. injection Hab as _ Hs. now exists a, b.
Qed.

Lemma prefix_before_newline (m x t : string) :
  singleLine m = true ->
  String.prefix m (x ++ newline ++ t) = String.prefix m x.
Proof.
  revert x. induction m as [|c m IH]; intros x Hm;
    [destruct x; reflexivity|].
  simpl in Hm. apply andb_true_iff in Hm as [Hc Hm].
  destruct x as [|d x]; simpl.
  - destruct (ascii_dec c (ascii_of_nat 10)) as [->|Hn]; [discriminate Hc|reflexivity].
  - destruct (ascii_dec c d); [now apply IH|reflexivity].
Qed.

Lemma includes_across_newline (m x t : string) :
  singleLine m = true -> m <> EmptyString ->
  Js.includes (x ++ newline ++ t) m = Js.includes x m || Js.includes t m.
Proof.
  intros Hm Hne. induction x as [|c x IH].
  - destruct m as [|d m]; [contradiction|].
    simpl in Hm. apply andb_true_iff in Hm as [Hd _].
    cbn [String.append newline Js.includes String.prefix].
    destruct (ascii_dec d (ascii_of_nat 10)) as [->|_]; [discriminate Hd|].
    reflexivity.
  - change ((String c x ++ newline ++ t)%string)
      with (String c (x ++ newline ++ t)%string).
    cbn [Js.includes].
    change (String c (x ++ newline ++ t)%string)
      with ((String c x ++ newline ++ t)%string).
    rewrite prefix_before_newline by exact Hm.
    rewrite IH. now rewrite orb_assoc.
Qed.

Lemma includes_joined_lines (m : string) (ls : list string) :
  singleLine m = true -> m <> EmptyString ->
  Js.includes (Js.join newline ls) m = existsb (fun l => Js.includes l m) ls.
Proof.
  intros Hm Hne. unfold Js.join.
  induction ls as [|x [|y r] IH].
  - destruct m; [contradiction|reflexivity].
  - simpl. now rewrite orb_false_r.
  - change (String.concat newline (x :: y :: r))
      with ((x ++ newline ++ String.concat newline (y :: r))%string).
    rewrite includes_across_newline by assumption.
    rewrite IH. reflexivity.
Qed.

(** ** The deploy cycle, by symbolic execution *)

Lemma targets_nonempty_length (targets : list Target) :
  targets <> [] -> (length targets =? 0)%nat = false.
Proof. destruct targets; [contradiction|reflexivity]. Qed.

Section Properties.
Variables ORE_PROGRAM_ID SYSTEM_PROGRAM_ID : PublicKey.
Variable SOL_PER_LAMPORT : float.
Variables getBoardPda getTreasuryPda : PublicKey.
Variable getRoundPda : Z -> PublicKey.
Variables getMinerPda getAutomationPda : PublicKey -> PublicKey.
Variable parseMiner : Buffer.t -> Js.Completion MinerData.
Variable parseRound : Buffer.t -> Js.Completion RoundData.

#[local] Abbreviation deployCycle :=
  (sendDeployTx ORE_PROGRAM_ID SYSTEM_PROGRAM_ID SOL_PER_LAMPORT getBoardPda
     getTreasuryPda getRoundPda getMinerPda getAutomationPda parseMiner parseRound).
#[local] Abbreviation checkpointTx :=
  (sendCheckpointTx ORE_PROGRAM_ID SYSTEM_PROGRAM_ID getBoardPda getTreasuryPda
     getRoundPda getMinerPda).
#[local] Abbreviation progress := (minerProgress getMinerPda parseMiner).
#[local] Abbreviation ready := (roundReady getRoundPda parseRound).
#[local] Abbreviation stake := (stakeLamports SOL_PER_LAMPORT).
#[local] Abbreviation fee := (feeLamports SOL_PER_LAMPORT).
#[local] Abbreviation expected :=
  (expectedTx ORE_PROGRAM_ID SYSTEM_PROGRAM_ID getBoardPda getTreasuryPda getRoundPda
     getMinerPda getAutomationPda).

(** Case analysis on what the next pending call answers: a condition, a
    completion or an optional account. *)
Ltac split_scrutinee :=
  match goal with
  | |- context [if ?c then _ else _] =>
      let E := fresh "E" in destruct c eqn:E
  | |- context [match ?c with Js.Normal _ => _ | Js.Throw _ => _ end] =>
      first [is_var c; destruct c | let E := fresh "E" in destruct c eqn:E]
  | |- context [match ?c with Some _ => _ | None => _ end] =>
      first [is_var c; destruct c | let E := fresh "E" in destruct c eqn:E]
  end.

(** Evaluation of the monad, leaving amounts, masks and texts alone. *)
Ltac run :=
  cbn -[Js.BigInt_floor createSquaresMask Js.showZ Js.showNat matchSignature
        Z.ltb Z.eqb Z.gtb Z.leb Z.pow PrimFloat.div PrimFloat.mul
        Js.ofLength String.append Js.slice0 Buffer.write_le Buffer.alloc
        Buffer.le_bytes].

Ltac unfold_cycle :=
  unfold sendDeployTx, events, completion, Buffer.writeUInt8, Buffer.writeBigUInt64LE,
    Buffer.writeUInt32LE, SystemProgram_transfer, attempt, log, lift,
    handleFatalError, sendAndConfirmTransaction, ret, throw, add.

(** One step: evaluate, then settle the buffer writes whose outcome is
    known. *)
Ltac step :=
  run;
  rewrite ?checkpoint_write, ?deploy_write_opcode, ?deploy_write_amount;
  rewrite ?deploy_write_mask by apply mask_fits;
  run.

Ltac symex := step; repeat (split_scrutinee; step).

Lemma sendDeployTx_sound_bounded st targets conn signer tx sg :
  In (Send tx sg) (events (deployCycle st targets conn signer)) ->
  exists kp mr mc amt f,
    (signer = Some kp /\ sg = [kp] /\ targets <> []
     /\ ready conn (currentRoundId st)
     /\ progress conn (publicKey kp) mr mc
     /\ stake st = Some amt /\ 0 <= amt < 2 ^ 64
     /\ fee st (length targets) = Some f
     /\ tx = expected kp (currentRoundId st) mr mc amt f (createSquaresMask targets))
    /\ f < 2 ^ 64.
Proof.
  unfold_cycle.
  destruct signer as [kp|]; [|run; intuition discriminate].
  destruct (length targets =? 0)%nat eqn:Elen; [run; intuition discriminate|].
  assert (Hne : targets <> []) by (intros ->; discriminate).
  symex.
  all: intros Hin.
  all: repeat match goal with
              | H : _ \/ _ |- _ => destruct H as [H|H]; try discriminate H
              | H : False |- _ => destruct H
              end.
  all: match goal with H : Send _ _ = Send _ _ |- _ => injection H as <- <- end.
  all: repeat match goal with
         | H : Js.BigInt_floor _ = Js.Normal _ |- _ => apply BigInt_floor_Normal in H
         | H : (0 <=? _) && (_ <? 2 ^ 64) = true |- _ =>
             apply andb_true_iff in H as [?%Z.leb_le ?%Z.ltb_lt]
         | H : (_ >? 0) = false |- _ => apply Z.gtb_ltb, Z.ltb_ge in H
         end.
  all: unfold roundReady, stakeLamports, feeLamports, expectedTx, dirtyEligible,
         checkpointIx, feeIx, deployIx, feeRecipient.
  all: exists kp; do 4 eexists.
  all: (split; [|shelve]).
  all: split; [reflexivity|]; split; [reflexivity|]; split; [exact Hne|].
  all: split; [eauto 10|].
  all: split; [first [eapply progress_record; eassumption
                     | apply progress_absent; assumption]|].
  all: split; [eassumption|]; split; [split; eassumption|].
  all: split; [eassumption|].
  all: repeat match goal with
         | H : (_ >? _) = _ |- _ => rewrite H; clear H
         | H : negb _ && _ = _ |- _ => rewrite H; clear H
         end; reflexivity.
  Unshelve.
  all: lia.
Qed.

Lemma sendDeployTx_sound st targets conn signer tx sg :
  In (Send tx sg) (events (deployCycle st targets conn signer)) ->
  exists kp mr mc amt f,
    signer = Some kp /\ sg = [kp] /\ targets <> []
    /\ ready conn (currentRoundId st)
    /\ progress conn (publicKey kp) mr mc
    /\ stake st = Some amt /\ 0 <= amt < 2 ^ 64
    /\ fee st (length targets) = Some f
    /\ tx = expected kp (currentRoundId st) mr mc amt f (createSquaresMask targets).
Proof.
  intros Hin.
  destruct (sendDeployTx_sound_bounded _ _ _ _ _ _ Hin)
    as (kp & mr & mc & amt & f & H & _).
  exists kp, mr, mc, amt, f. exact H.
Qed.

Lemma sendDeployTx_complete st targets conn kp mr mc amt f :
  targets <> [] ->
  ready conn (currentRoundId st) ->
  progress conn (publicKey kp) mr mc ->
  stake st = Some amt -> 0 <= amt < 2 ^ 64 ->
  fee st (length targets) = Some f -> f < 2 ^ 64 ->
  sent (events (deployCycle st targets conn (Some kp)))
  = [expected kp (currentRoundId st) mr mc amt f (createSquaresMask targets)].
Proof.
  intros Hne (info & rd & total & Hacc & Hparse & Htotal) Hprog Hstake Hamt Hfee Hbound.
  unfold stakeLamports in Hstake. unfold feeLamports in Hfee.
  apply BigInt_floor_Normal in Hstake, Hfee.
  assert (Hrange : (0 <=? amt) && (amt <? 2 ^ 64) = true).
  { apply andb_true_iff. split; [apply Z.leb_le|apply Z.ltb_lt]; lia. }
  unfold_cycle. rewrite (targets_nonempty_length targets Hne).
  unfold expectedTx, dirtyEligible, checkpointIx, feeIx, deployIx, feeRecipient.
  rewrite Hacc. run. rewrite Hparse. run. rewrite Htotal. run.
  destruct Hprog as [Habs|minfo m Hm Hpm].
  - rewrite Habs. symex; try congruence.
    all: exfalso; injection Hfee as ->.
    all: match goal with
         | H : (0 <=? ?x) && (?x <? 2 ^ 64) = false, G : (?x >? 0) = true |- _ =>
             apply Z.gtb_lt in G;
             apply andb_false_iff in H as [H%Z.leb_gt|H%Z.ltb_ge]; lia
         end.
  - rewrite Hm. run. rewrite Hpm. symex; try congruence.
    all: exfalso; injection Hfee as ->.
    all: match goal with
         | H : (0 <=? ?x) && (?x <? 2 ^ 64) = false, G : (?x >? 0) = true |- _ =>
             apply Z.gtb_lt in G;
             apply andb_false_iff in H as [H%Z.leb_gt|H%Z.ltb_ge]; lia
         end.
Qed.

Lemma progress_functional conn authority mr mc mr' mc' :
  progress conn authority mr mc -> progress conn authority mr' mc' ->
  mr' = mr /\ mc' = mc.
Proof.
  intros [H1|i1 m1 H1 P1] [H2|i2 m2 H2 P2]; try congruence; auto.
  rewrite H1 in H2. injection H2 as <-. rewrite P1 in P2. injection P2 as <-. auto.
Qed.

Lemma dirtyEligible_true mr mc current :
  mc <> mr -> mr < current -> dirtyEligible mr mc current = true.
Proof.
  intros Hd Hlt. unfold dirtyEligible.
  apply andb_true_iff. split.
  - apply negb_true_iff, Z.eqb_neq. congruence.
  - now apply Z.ltb_lt.
Qed.

Lemma dirtyEligible_current mr mc current :
  current <= mr -> dirtyEligible mr mc current = false.
Proof.
  intros Hle. unfold dirtyEligible.
  apply andb_false_iff. right. now apply Z.ltb_ge.
Qed.

Lemma dirtyEligible_clean mr current : dirtyEligible mr mr current = false.
Proof. unfold dirtyEligible. now rewrite Z.eqb_refl. Qed.

(** A failed submission of the deploy transaction always reaches the
    fatal-error handler, whatever the failure says. *)
Lemma deploy_failure_is_fatal st targets conn signer tx sg e :
  In (Send tx sg) (events (deployCycle st targets conn signer)) ->
  confirm conn tx sg = Js.Throw e ->
  fatals (events (deployCycle st targets conn signer)) = [e]
  /\ completion (deployCycle st targets conn signer) = Js.Normal tt.
Proof.
  unfold_cycle.
  destruct signer as [kp|]; [|run; intuition discriminate].
  destruct (length targets =? 0)%nat; [run; intuition discriminate|].
  symex.
  all: intros Hin Hfail.
  all: repeat match goal with
              | H : _ \/ _ |- _ => destruct H as [H|H]; try discriminate H
              | H : False |- _ => destruct H
              end.
  all: match goal with H : Send _ _ = Send _ _ |- _ => injection H as <- <- end.
  all: match goal with
       | E : confirm _ ?t _ = _, H : confirm _ ?t' _ = _ |- _ =>
           change t' with t in H
       end.
  all: split; congruence.
Qed.

(** The warning of the dirty-ineligible branch is logged as soon as the
    miner record is read, whatever happens to the amounts afterwards. *)
Lemma warning_logged st targets conn kp info m :
  targets <> [] ->
  ready conn (currentRoundId st) ->
  getAccountInfo conn (getMinerPda (publicKey kp)) = Js.Normal (Some info) ->
  parseMiner (data info) = Js.Normal m ->
  checkpoint_id m <> round_id m ->
  currentRoundId st <= round_id m ->
  In (Log ("warning: state dirty but round " ++ Js.showZ (round_id m)
           ++ " is current. skipping checkpoint.")%string)
     (events (deployCycle st targets conn (Some kp))).
Proof.
  intros Hne (rinfo & rd & total & Hacc & Hparse & Htotal) Hm Hpm Hdirty Hcur.
  unfold_cycle. rewrite (targets_nonempty_length targets Hne).
  rewrite Hacc. run. rewrite Hparse. run. rewrite Htotal. run.
  rewrite Hm. run. rewrite Hpm. run.
  assert (Hlt : (round_id m <? currentRoundId st) = false) by now apply Z.ltb_ge.
  assert (Hd : negb (round_id m =? checkpoint_id m) = true).
  { apply negb_true_iff, Z.eqb_neq. congruence. }
  rewrite Hlt, Hd.
  symex; auto.
Qed.

(** What an assembled transaction holds. *)
Lemma expected_transfer kp current mr mc amt f mask from to lamports :
  In (Transfer from to lamports) (expected kp current mr mc amt f mask) ->
  0 < f /\ from = publicKey kp /\ to = feeRecipient /\ lamports = f.
Proof.
  unfold expectedTx, checkpointIx, feeIx, deployIx.
  destruct (dirtyEligible mr mc current); destruct (f >? 0) eqn:Ef; cbn [app In];
    intros Hin; repeat (destruct Hin as [Hin|Hin]; try discriminate Hin);
    try contradiction.
  all: injection Hin as <- <- <-; apply Z.gtb_lt in Ef; auto.
Qed.

Lemma expected_has_transfer kp current mr mc amt f mask :
  existsb isTransfer (expected kp current mr mc amt f mask) = (f >? 0).
Proof.
  unfold expectedTx, checkpointIx, feeIx, deployIx.
  destruct (dirtyEligible mr mc current); destruct (f >? 0); reflexivity.
Qed.

Lemma expected_has_checkpoint kp current mr mc amt f mask :
  existsb isCheckpoint (expected kp current mr mc amt f mask)
  = dirtyEligible mr mc current.
Proof.
  unfold expectedTx, checkpointIx, feeIx, deployIx.
  destruct (dirtyEligible mr mc current); destruct (f >? 0); reflexivity.
Qed.

Lemma expected_ends_with_deploy kp current mr mc amt f mask :
  exists pre,
    expected kp current mr mc amt f mask
    = pre ++ [deployIx ORE_PROGRAM_ID SYSTEM_PROGRAM_ID getBoardPda getRoundPda
                getMinerPda getAutomationPda kp current amt mask].
Proof.
  unfold expectedTx. eexists. rewrite !app_assoc. reflexivity.
Qed.

(** ** The claims about the deploy cycle *)

(** C1. Dirty and eligible: when the miner record has
    [checkpoint_id <> round_id] and [round_id] is below the current round,
    every transaction the cycle submits carries, right after the two
    compute-budget hints and before the deploy instruction, a checkpoint
    instruction whose data is the byte 2 alone and whose round account is
    the address derived from the stale [round_id] (which differs from the
    current round, and so does its address when the derivation is
    injective); and when the amounts encode, the stake and the fee each
    into 64 bits, the cycle does submit that transaction. *)
Theorem checkpoint_prepended_when_stale st targets conn kp info m :
  targets <> [] ->
  ready conn (currentRoundId st) ->
  getAccountInfo conn (getMinerPda (publicKey kp)) = Js.Normal (Some info) ->
  parseMiner (data info) = Js.Normal m ->
  checkpoint_id m <> round_id m ->
  round_id m < currentRoundId st ->
  let cycle := deployCycle st targets conn (Some kp) in
  (forall tx sg, In (Send tx sg) (events cycle) ->
     exists keys feePart deployKeys amt,
       tx = [SetComputeUnitLimit 750000; SetComputeUnitPrice 100000;
             TransactionInstruction keys ORE_PROGRAM_ID [2]]
            ++ feePart
            ++ [TransactionInstruction deployKeys ORE_PROGRAM_ID
                  (6 :: Buffer.le_bytes 8 amt
                     ++ Buffer.le_bytes 4 (createSquaresMask targets))]
       /\ nth_error keys 3 = Some (mkMeta (getRoundPda (round_id m)) false true)
       /\ forallb isTransfer feePart = true)
  /\ (forall amt f,
        stake st = Some amt -> 0 <= amt < 2 ^ 64 ->
        fee st (length targets) = Some f -> f < 2 ^ 64 ->
        sent (events cycle)
        = [expected kp (currentRoundId st) (round_id m) (checkpoint_id m) amt f
             (createSquaresMask targets)])
  /\ round_id m <> currentRoundId st
  /\ ((forall a b, getRoundPda a = getRoundPda b -> a = b) ->
      getRoundPda (round_id m) <> getRoundPda (currentRoundId st)).
Proof.
  intros Hne Hready Hacc Hparse Hdirty Hstale cycle.
  pose proof (progress_record getMinerPda parseMiner conn (publicKey kp) info m Hacc Hparse)
    as Hprog.
  split; [|split; [|split]].
  - intros tx sg Hin.
    destruct (sendDeployTx_sound _ _ _ _ _ _ Hin)
      as (kp' & mr & mc & amt & f & [= <-] & _ & _ & _ & Hp & _ & _ & _ & ->).
    destruct (progress_functional _ _ _ _ _ _ Hprog Hp) as [-> ->].
    unfold expectedTx. rewrite dirtyEligible_true by assumption.
    eexists _, (if f >? 0 then [feeIx kp f] else []), _, amt.
    split; [reflexivity|]. split; [reflexivity|].
    destruct (f >? 0); reflexivity.
  - intros amt f Hs Ha Hf Hb. now apply sendDeployTx_complete.
  - lia.
  - intros Hinj Heq. apply Hinj in Heq. lia.
Qed.

(** C3. In every transaction the cycle submits, the stake written into the
    deploy payload is [floor(s / unit)] (which, being non-negative there, is
    also [s / unit] truncated toward zero), the fee is
    [floor(s * n * 0.01 / unit)], a transfer instruction is present exactly
    when that fee is strictly positive, and any transfer carries that fee.
    The arithmetic is JavaScript's, on binary64 numbers. *)
Theorem stake_and_fee_amounts st targets conn signer tx sg :
  In (Send tx sg) (events (deployCycle st targets conn signer)) ->
  targets <> []
  /\ exists amt f pre keys,
       Js.floorZ (customDeployAmount st / SOL_PER_LAMPORT)%float = Some amt
       /\ Js.truncZ (customDeployAmount st / SOL_PER_LAMPORT)%float = Some amt
       /\ Js.floorZ (customDeployAmount st * Js.ofLength (length targets) * 0.01
                     / SOL_PER_LAMPORT)%float = Some f
       /\ tx = pre ++ [TransactionInstruction keys ORE_PROGRAM_ID
                         (6 :: Buffer.le_bytes 8 amt
                            ++ Buffer.le_bytes 4 (createSquaresMask targets))]
       /\ Buffer.le_value (Buffer.le_bytes 8 amt) = amt
       /\ (existsb isTransfer tx = true <-> 0 < f)
       /\ (forall from to lamports, In (Transfer from to lamports) tx -> lamports = f).
Proof.
  intros Hin.
  destruct (sendDeployTx_sound _ _ _ _ _ _ Hin)
    as (kp & mr & mc & amt & f & _ & _ & Hne & _ & _ & Hs & Ha & Hf & ->).
  split; [exact Hne|].
  destruct (expected_ends_with_deploy kp (currentRoundId st) mr mc amt f
              (createSquaresMask targets)) as [pre Hpre].
  exists amt, f, pre. eexists.
  split; [exact Hs|]. split; [apply floor_nonneg_trunc; [exact Hs|lia]|].
  split; [exact Hf|]. split; [exact Hpre|].
  split; [rewrite le_value_le_bytes; apply Z.mod_small; exact Ha|].
  split.
  - rewrite expected_has_transfer. apply Z.gtb_lt.
  - intros from to lamports Hx. now apply expected_transfer in Hx.
Qed.

(** C5. Every transaction the cycle submits holds, in this order: the
    compute-unit limit, the compute-unit price, the checkpoint instruction
    exactly when the miner progress is dirty and eligible, the fee transfer
    exactly when the fee is strictly positive, and the deploy instruction
    last. *)
Theorem instruction_order st targets conn signer tx sg :
  In (Send tx sg) (events (deployCycle st targets conn signer)) ->
  exists kp mr mc amt f,
    signer = Some kp
    /\ progress conn (publicKey kp) mr mc
    /\ stake st = Some amt
    /\ fee st (length targets) = Some f
    /\ tx = [SetComputeUnitLimit 750000; SetComputeUnitPrice 100000]
            ++ (if negb (mr =? mc) && (mr <? currentRoundId st)
                then [checkpointIx ORE_PROGRAM_ID SYSTEM_PROGRAM_ID getBoardPda
                        getTreasuryPda getRoundPda getMinerPda kp mr]
                else [])
            ++ (if f >? 0 then [Transfer (publicKey kp) feeRecipient f] else [])
            ++ [deployIx ORE_PROGRAM_ID SYSTEM_PROGRAM_ID getBoardPda getRoundPda
                  getMinerPda getAutomationPda kp (currentRoundId st) amt
                  (createSquaresMask targets)].
Proof.
  intros Hin.
  destruct (sendDeployTx_sound _ _ _ _ _ _ Hin)
    as (kp & mr & mc & amt & f & Hs & _ & _ & _ & Hp & Ha & _ & Hf & Htx).
  exists kp, mr, mc, amt, f. auto.
Qed.

(** C6. Dirty but not eligible: when the miner record has
    [checkpoint_id <> round_id] and [round_id] is not below the current
    round, the cycle logs the warning, no transaction it submits holds a
    checkpoint instruction, and when the amounts encode, the stake and the
    fee each into 64 bits, it submits the deploy transaction all the
    same. *)
Theorem no_checkpoint_when_round_is_current st targets conn kp info m :
  targets <> [] ->
  ready conn (currentRoundId st) ->
  getAccountInfo conn (getMinerPda (publicKey kp)) = Js.Normal (Some info) ->
  parseMiner (data info) = Js.Normal m ->
  checkpoint_id m <> round_id m ->
  currentRoundId st <= round_id m ->
  let cycle := deployCycle st targets conn (Some kp) in
  In (Log ("warning: state dirty but round " ++ Js.showZ (round_id m)
           ++ " is current. skipping checkpoint.")%string) (events cycle)
  /\ (forall tx sg, In (Send tx sg) (events cycle) -> existsb isCheckpoint tx = false)
  /\ (forall amt f,
        stake st = Some amt -> 0 <= amt < 2 ^ 64 ->
        fee st (length targets) = Some f -> f < 2 ^ 64 ->
        sent (events cycle)
        = [[SetComputeUnitLimit 750000; SetComputeUnitPrice 100000]
           ++ (if f >? 0 then [Transfer (publicKey kp) feeRecipient f] else [])
           ++ [deployIx ORE_PROGRAM_ID SYSTEM_PROGRAM_ID getBoardPda getRoundPda
                 getMinerPda getAutomationPda kp (currentRoundId st) amt
                 (createSquaresMask targets)]]).
Proof.
  intros Hne Hready Hacc Hparse Hdirty Hcur cycle.
  pose proof (progress_record getMinerPda parseMiner conn (publicKey kp) info m Hacc Hparse)
    as Hprog.
  split; [now apply (warning_logged st targets conn kp info m)|]. split.
  - intros tx sg Hin.
    destruct (sendDeployTx_sound _ _ _ _ _ _ Hin)
      as (kp' & mr & mc & amt & f & [= <-] & _ & _ & _ & Hp & _ & _ & _ & ->).
    destruct (progress_functional _ _ _ _ _ _ Hprog Hp) as [-> ->].
    rewrite expected_has_checkpoint. now apply dirtyEligible_current.
  - intros amt f Hs Ha Hf Hb. unfold cycle.
    rewrite (sendDeployTx_complete st targets conn kp _ _ amt f
               Hne Hready Hprog Hs Ha Hf Hb).
    unfold expectedTx. now rewrite dirtyEligible_current.
Qed.

(** C7. Clean: when the authority has no miner account, or its record has
    [checkpoint_id = round_id], no transaction the cycle submits holds a
    checkpoint instruction, whatever the current round is. *)
Theorem no_checkpoint_when_clean st targets conn kp :
  (getAccountInfo conn (getMinerPda (publicKey kp)) = Js.Normal None
   \/ exists info m,
        getAccountInfo conn (getMinerPda (publicKey kp)) = Js.Normal (Some info)
        /\ parseMiner (data info) = Js.Normal m
        /\ checkpoint_id m = round_id m) ->
  forall tx sg,
    In (Send tx sg) (events (deployCycle st targets conn (Some kp))) ->
    existsb isCheckpoint tx = false.
Proof.
  intros Hclean tx sg Hin.
  destruct (sendDeployTx_sound _ _ _ _ _ _ Hin)
    as (kp' & mr & mc & amt & f & [= <-] & _ & _ & _ & Hp & _ & _ & _ & ->).
  rewrite expected_has_checkpoint.
  assert (Heq : mr = mc); [|subst mc; apply dirtyEligible_clean].
  destruct Hclean as [Habs|(info & m & Hacc & Hparse & Hc)].
  - pose proof (progress_absent getMinerPda parseMiner conn (publicKey kp) Habs) as Hprog.
    destruct (progress_functional _ _ _ _ _ _ Hprog Hp) as [-> ->]. reflexivity.
  - pose proof (progress_record getMinerPda parseMiner conn (publicKey kp) info m Hacc Hparse)
      as Hprog.
    destruct (progress_functional _ _ _ _ _ _ Hprog Hp) as [-> ->]. now symmetry.
Qed.

(** C8. The data of the deploy instruction, the last instruction of every
    transaction the cycle submits, is 13 bytes: the opcode 6, the stake in
    smallest units as 8 little-endian bytes, the squares mask as 4
    little-endian bytes; both fields decode back to the values written. *)
Theorem deploy_payload_layout st targets conn signer tx sg :
  In (Send tx sg) (events (deployCycle st targets conn signer)) ->
  exists pre keys amt payload,
    tx = pre ++ [TransactionInstruction keys ORE_PROGRAM_ID payload]
    /\ stake st = Some amt
    /\ 0 <= amt < 2 ^ 64
    /\ payload = [6] ++ Buffer.le_bytes 8 amt
                     ++ Buffer.le_bytes 4 (createSquaresMask targets)
    /\ length payload = 13%nat
    /\ Forall (fun b => 0 <= b < 256) payload
    /\ Buffer.le_value (firstn 8 (skipn 1 payload)) = amt
    /\ Buffer.le_value (skipn 9 payload) = createSquaresMask targets.
Proof.
  intros Hin.
  destruct (sendDeployTx_sound _ _ _ _ _ _ Hin)
    as (kp & mr & mc & amt & f & _ & _ & _ & _ & _ & Hs & Ha & _ & ->).
  destruct (expected_ends_with_deploy kp (currentRoundId st) mr mc amt f
              (createSquaresMask targets)) as [pre Hpre].
  exists pre. eexists _, amt, _.
  split; [exact Hpre|]. split; [exact Hs|]. split; [exact Ha|].
  split; [reflexivity|]. split; [reflexivity|]. split.
  - constructor; [lia|]. apply Forall_app. split; apply le_bytes_range.
  - split.
    + change (firstn 8 _) with (Buffer.le_bytes 8 amt).
      rewrite le_value_le_bytes. apply Z.mod_small. exact Ha.
    + change (skipn 9 _) with (Buffer.le_bytes 4 (createSquaresMask targets)).
      rewrite le_value_le_bytes. apply Z.mod_small. apply mask_fits.
Qed.

(** C10. A transfer instruction in a transaction the cycle submits always
    moves the computed fee from the signing authority to the one address
    written in the source. *)
Theorem fee_recipient_is_fixed st targets conn signer tx sg from to lamports :
  In (Send tx sg) (events (deployCycle st targets conn signer)) ->
  In (Transfer from to lamports) tx ->
  exists kp,
    signer = Some kp
    /\ from = publicKey kp
    /\ to = PublicKey_new "oREVE663st4oVqRp31TdEKdjqUYmZkJ3Vofi1zEAPro"
    /\ fee st (length targets) = Some lamports
    /\ 0 < lamports.
Proof.
  intros Hin Hx.
  destruct (sendDeployTx_sound _ _ _ _ _ _ Hin)
    as (kp & mr & mc & amt & f & Hs & _ & _ & _ & _ & _ & _ & Hf & ->).
  apply expected_transfer in Hx as (Hpos & -> & -> & ->).
  exists kp. auto.
Qed.

(** C9. The cycle ends early, submitting nothing, calling the fatal-error
    handler never and returning normally, when the signer is missing, the
    selection is empty, the current round's account does not exist, or the
    fetched account does not decode as an initialized round. Each case
    leaves one log line; with a signer and a non-empty selection, the last
    two leave the line that defers the cycle to the next tick. *)
Theorem early_exit_without_submission st targets conn signer :
  let cycle := deployCycle st targets conn signer in
  let roundPda := getRoundPda (currentRoundId st) in
  (signer = None
   \/ targets = []
   \/ getAccountInfo conn roundPda = Js.Normal None
   \/ exists info,
        getAccountInfo conn roundPda = Js.Normal (Some info)
        /\ notInitialized parseRound info) ->
  sent (events cycle) = []
  /\ fatals (events cycle) = []
  /\ completion cycle = Js.Normal tt
  /\ (signer = None ->
      events cycle = [Log "deploy failed: signer keypair not loaded"])
  /\ (signer <> None -> targets = [] ->
      events cycle = [Log "deploy skipped: no targets provided"])
  /\ (signer <> None -> targets <> [] ->
      getAccountInfo conn roundPda = Js.Normal None ->
      events cycle
      = [Log ("deploy skipped: round " ++ Js.showZ (currentRoundId st)
              ++ " account not found. Waiting for next tick.")%string])
  /\ (signer <> None -> targets <> [] ->
      forall info,
        getAccountInfo conn roundPda = Js.Normal (Some info) ->
        notInitialized parseRound info ->
        events cycle
        = [Log ("deploy skipped: round " ++ Js.showZ (currentRoundId st)
                ++ " account found but not initialized. Waiting for next tick.")%string]).
Proof.
  intros cycle roundPda Hpre. subst cycle roundPda.
  unfold_cycle. unfold notInitialized in *.
  destruct signer as [kp|].
  2: { run. repeat split; congruence. }
  destruct targets as [|t0 ts].
  1: { run. repeat split; congruence. }
  destruct Hpre as [H|[H|[H|(info & Hacc & Hbad)]]]; try discriminate H.
  - rewrite H. run. repeat split; congruence.
  - rewrite Hacc. run.
    destruct (parseRound (data info)) as [rd|err] eqn:Eparse; run.
    + rewrite Hbad. run. repeat split; congruence.
    + repeat split; congruence.
Qed.

(** C2, amended. A failed checkpoint submission whose log content (or whose
    message, when the failure carries no logs) contains the marker is
    treated as success: one informational line is logged, the caller gets
    [true] and the fatal-error handler is not called; any other failed
    checkpoint submission goes to the fatal-error handler and the caller
    gets [false]. A failed submission of the deploy cycle goes to the
    fatal-error handler whatever it contains. *)
Theorem checkpoint_failure_classification round conn kp e :
  let tx :=
    [TransactionInstruction
       [ mkMeta (publicKey kp) true true;
         mkMeta getBoardPda false true;
         mkMeta (getMinerPda (publicKey kp)) false true;
         mkMeta (getRoundPda round) false true;
         mkMeta getTreasuryPda false true;
         mkMeta SYSTEM_PROGRAM_ID false false ]
       ORE_PROGRAM_ID [2]] in
  let run := checkpointTx round conn (Some kp) in
  confirm conn tx [kp] = Js.Throw e ->
  (Js.includes (errorLogs e) benignMarker = true ->
   events run
   = [Send tx [kp];
      Log ("checkpoint for round " ++ Js.showZ round
           ++ " already done or not needed")%string]
   /\ completion run = Js.Normal true)
  /\ (Js.includes (errorLogs e) benignMarker = false ->
      events run = [Send tx [kp]; Fatal e None]
      /\ completion run = Js.Normal false)
  /\ (forall st targets conn' signer tx' sg e',
        In (Send tx' sg) (events (deployCycle st targets conn' signer)) ->
        confirm conn' tx' sg = Js.Throw e' ->
        fatals (events (deployCycle st targets conn' signer)) = [e']).
Proof.
  intros tx run Hfail. subst tx run.
  unfold sendCheckpointTx, events, completion, Buffer.writeUInt8, log, lift,
    handleFatalError, sendAndConfirmTransaction, ret, add.
  rewrite checkpoint_write. run. rewrite Hfail. run.
  split; [|split].
  - intros ->. run. split; reflexivity.
  - intros ->. run. split; reflexivity.
  - intros st targets conn' signer tx' sg e' Hin Hthrow.
    now apply (deploy_failure_is_fatal st targets conn' signer tx' sg e').
Qed.

(** ** More about the deploy cycle *)

(** X1. Every error raised inside the cycle is caught: the function returns
    normally, submits at most one transaction and calls the fatal-error
    handler at most once, as the last thing it does. *)
Theorem deploy_cycle_is_contained st targets conn signer :
  let cycle := deployCycle st targets conn signer in
  completion cycle = Js.Normal tt
  /\ (length (sent (events cycle)) <= 1)%nat
  /\ (fatals (events cycle) = []
      \/ exists pre e logs,
           events cycle = pre ++ [Fatal e logs] /\ fatals pre = []).
Proof.
  intros cycle. subst cycle. unfold_cycle.
  destruct signer as [kp|]; [|run; auto].
  destruct (length targets =? 0)%nat; [run; auto|].
  symex.
  all: split; [reflexivity|]; split; [auto|].
  all: first
    [ left; reflexivity
    | right;
      match goal with
      | |- exists pre e logs, ?l = _ /\ _ =>
          exists (removelast l); do 2 eexists; split; [reflexivity|reflexivity]
      end ].
Qed.

(** X2. A transaction is submitted exactly when a signer is loaded, the
    selection is not empty, the round account is ready, the miner progress
    can be read and both amounts convert, the stake into 64 bits and the
    fee below 2^64 (a larger fee makes the transfer instruction throw). *)
Theorem deploy_submits_iff st targets conn signer :
  sent (events (deployCycle st targets conn signer)) <> []
  <-> exists kp mr mc amt f,
        signer = Some kp
        /\ targets <> []
        /\ ready conn (currentRoundId st)
        /\ progress conn (publicKey kp) mr mc
        /\ stake st = Some amt /\ 0 <= amt < 2 ^ 64
        /\ fee st (length targets) = Some f /\ f < 2 ^ 64.
Proof.
  split.
  - intros Hsent.
    destruct (sent (events (deployCycle st targets conn signer))) as [|tx rest] eqn:Es;
      [contradiction|].
    assert (Hin : exists sg, In (Send tx sg) (events (deployCycle st targets conn signer))).
    { assert (Hx : In tx (sent (events (deployCycle st targets conn signer))))
        by (rewrite Es; now left).
      unfold sent in Hx. apply in_flat_map in Hx as (ev & Hev & Htx).
      destruct ev as [msg|tx' sg|e logs]; try contradiction.
      destruct Htx as [<-|[]]. now exists sg. }
    destruct Hin as [sg Hin].
    destruct (sendDeployTx_sound_bounded _ _ _ _ _ _ Hin)
      as (kp & mr & mc & amt & f & (H1 & _ & H2 & H3 & H4 & H5 & H6 & H7 & _) & H8).
    exists kp, mr, mc, amt, f. auto 10.
  - intros (kp & mr & mc & amt & f & -> & Hne & Hr & Hp & Hs & Ha & Hf & Hb).
    rewrite (sendDeployTx_complete st targets conn kp mr mc amt f
               Hne Hr Hp Hs Ha Hf Hb).
    discriminate.
Qed.

(** X3. A confirmed submission ends the cycle with the success line, which
    shows the first 16 characters of the signature, and without any call of
    the fatal-error handler. *)
Theorem deploy_success_is_logged st targets conn signer tx sg signature :
  In (Send tx sg) (events (deployCycle st targets conn signer)) ->
  confirm conn tx sg = Js.Normal signature ->
  fatals (events (deployCycle st targets conn signer)) = []
  /\ exists pre,
       events (deployCycle st targets conn signer)
       = pre ++ [Send tx sg;
                 Log ("deploy successful! signature: "
                      ++ Js.slice0 16 signature ++ "...")%string].
Proof.
  unfold_cycle.
  destruct signer as [kp|]; [|run; intuition discriminate].
  destruct (length targets =? 0)%nat; [run; intuition discriminate|].
  symex.
  all: intros Hin Hok.
  all: repeat match goal with
              | H : _ \/ _ |- _ => destruct H as [H|H]; try discriminate H
              | H : False |- _ => destruct H
              end.
  all: match goal with H : Send _ _ = Send _ _ |- _ => injection H as <- <- end.
  all: match goal with
       | E : confirm _ ?t _ = _, H : confirm _ ?t' _ = _ |- _ =>
           change t' with t in H; rewrite E in H
       end.
  all: try discriminate.
  all: match goal with H : Js.Normal _ = Js.Normal _ |- _ => injection H as -> end.
  all: split; [reflexivity|].
  all: match goal with
       | |- exists pre, ?l = _ =>
           exists (removelast (removelast l)); reflexivity
       end.
Qed.

(** X4. Once the round account is ready, the cycle cannot end quietly without a
    deploy: the fatal-error handler is not called only if the transaction
    was submitted and confirmed. *)
Theorem deploy_no_silent_failure st targets conn kp :
  targets <> [] ->
  ready conn (currentRoundId st) ->
  (fatals (events (deployCycle st targets conn (Some kp))) = []
   <-> exists tx signature,
         In (Send tx [kp]) (events (deployCycle st targets conn (Some kp)))
         /\ confirm conn tx [kp] = Js.Normal signature).
Proof.
  intros Hne (info & rd & total & Hacc & Hparse & Htotal).
  unfold_cycle. rewrite (targets_nonempty_length targets Hne).
  rewrite Hacc. run. rewrite Hparse. run. rewrite Htotal.
  symex.
  all: split;
    [ intros Hf;
      first [ discriminate Hf
            | eexists _, _; split; [cbn [In]; eauto 6 | eassumption] ]
    | intros (tx & signature & Hin & Hok);
      first
        [ reflexivity
        | exfalso;
          repeat match goal with
                 | H : _ \/ _ |- _ => destruct H as [H|H]; try discriminate H
                 | H : False |- _ => destruct H
                 end;
          match goal with H : Send _ _ = Send _ _ |- _ => injection H as <- end;
          match goal with
          | E : confirm _ ?t _ = _, H : confirm _ ?t' _ = _ |- _ =>
              change t' with t in H; rewrite E in H; discriminate H
          end ] ].
Qed.

(** X5. What the fatal-error handler is told after a failed submission: the
    failure itself and, when its message names a signature after the word
    Transaction, the logs fetched for that signature; when fetching them
    fails, a line says so and the handler gets no logs. *)
Theorem deploy_failure_diagnostics st targets conn signer tx sg e :
  In (Send tx sg) (events (deployCycle st targets conn signer)) ->
  confirm conn tx sg = Js.Throw e ->
  exists pre,
    events (deployCycle st targets conn signer)
    = pre ++ Send tx sg ::
        match matchSignature (Js.message e) with
        | None => [Fatal e None]
        | Some signature =>
            match getLogs conn signature with
            | Js.Normal fetched => [Fatal e (Some fetched)]
            | Js.Throw logError =>
                [Log ("error fetching logs: " ++ Js.message logError)%string;
                 Fatal e None]
            end
        end.
Proof.
  remember
    (match matchSignature (Js.message e) with
     | None => [Fatal e None]
     | Some signature =>
         match getLogs conn signature with
         | Js.Normal fetched => [Fatal e (Some fetched)]
         | Js.Throw logError =>
             [Log ("error fetching logs: " ++ Js.message logError)%string;
              Fatal e None]
         end
     end) as report eqn:Hreport.
  unfold_cycle.
  destruct signer as [kp|]; [|run; intuition discriminate].
  destruct (length targets =? 0)%nat; [run; intuition discriminate|].
  symex.
  all: intros Hin Hfail.
  all: repeat match goal with
              | H : _ \/ _ |- _ => destruct H as [H|H]; try discriminate H
              | H : False |- _ => destruct H
              end.
  all: match goal with H : Send _ _ = Send _ _ |- _ => injection H as <- <- end.
  all: match goal with
       | E : confirm _ ?t _ = _, H : confirm _ ?t' _ = _ |- _ =>
           change t' with t in H; rewrite E in H
       end.
  all: try discriminate.
  all: match goal with H : Js.Throw _ = Js.Throw _ |- _ => injection H as <- end.
  all: repeat match goal with
         | H : matchSignature _ = _ |- _ => rewrite H in Hreport; clear H
         | H : getLogs _ _ = _ |- _ => rewrite H in Hreport; clear H
         end.
  all: subst report.
  all: match goal with
       | |- exists pre, ?l = _ =>
           first [ exists (firstn 1 l); reflexivity
                 | exists (firstn 2 l); reflexivity ]
       end.
Qed.

(** ** The checkpoint transaction *)

(** X6. [sendCheckpointTx] never throws. Without a signer it logs and
    returns [false], submitting nothing. With one it submits exactly one
    transaction, the single checkpoint instruction for the round asked;
    it returns [true] exactly when that submission is confirmed or fails
    with the marker in its content, and it calls the fatal-error handler
    exactly when it returns [false]. *)
Theorem checkpoint_outcome round conn signer :
  let run := checkpointTx round conn signer in
  (exists ok, completion run = Js.Normal ok)
  /\ (signer = None ->
      run = ([Log "checkpoint FAILED: signer keypair not loaded"], Js.Normal false))
  /\ (forall kp, signer = Some kp ->
      let tx :=
        [TransactionInstruction
           [ mkMeta (publicKey kp) true true;
             mkMeta getBoardPda false true;
             mkMeta (getMinerPda (publicKey kp)) false true;
             mkMeta (getRoundPda round) false true;
             mkMeta getTreasuryPda false true;
             mkMeta SYSTEM_PROGRAM_ID false false ]
           ORE_PROGRAM_ID [2]] in
      sent (events run) = [tx]
      /\ (completion run = Js.Normal true
          <-> (exists signature, confirm conn tx [kp] = Js.Normal signature)
              \/ (exists e, confirm conn tx [kp] = Js.Throw e
                            /\ Js.includes (errorLogs e) benignMarker = true))
      /\ (fatals (events run) = [] <-> completion run = Js.Normal true)).
Proof.
  intros run. subst run.
  unfold sendCheckpointTx, events, completion, Buffer.writeUInt8, log, lift,
    handleFatalError, sendAndConfirmTransaction, ret, add.
  destruct signer as [kp|].
  2: { run. split; [eauto|]. split; [reflexivity|discriminate]. }
  rewrite checkpoint_write. run.
  destruct (confirm conn _ [kp]) as [signature|e] eqn:Econf; run.
  - split; [eauto|]. split; [discriminate|].
    intros kp' [= <-].
    split; [reflexivity|]. split; [|tauto].
    split; [eauto|reflexivity].
  - destruct (Js.includes (errorLogs e) benignMarker) eqn:Emark; run.
    + split; [eauto|]. split; [discriminate|].
      intros kp' [= <-].
      split; [reflexivity|]. split; [|tauto].
      split; [intros _; right; eauto|reflexivity].
    + split; [eauto|]. split; [discriminate|].
      intros kp' [= <-].
      split; [reflexivity|]. split; [|split; discriminate].
      split; [discriminate|].
      intros [[s Hs]|(e' & He' & He)]; congruence.
Qed.

(** X7. Which failures of a checkpoint submission count as success: those with
    the marker inside one of the attached log lines; the message is looked
    at only when the failure carries no log array at all. The marker is
    matched as a piece of text, whatever follows it. *)
Theorem checkpoint_benign_by_line round conn kp e :
  confirm conn
    [TransactionInstruction
       [ mkMeta (publicKey kp) true true;
         mkMeta getBoardPda false true;
         mkMeta (getMinerPda (publicKey kp)) false true;
         mkMeta (getRoundPda round) false true;
         mkMeta getTreasuryPda false true;
         mkMeta SYSTEM_PROGRAM_ID false false ]
       ORE_PROGRAM_ID [2]]
    [kp] = Js.Throw e ->
  (completion (checkpointTx round conn (Some kp)) = Js.Normal true
   <-> match Js.logs e with
       | Some lines =>
           exists line a b,
             In line lines /\ line = (a ++ benignMarker ++ b)%string
       | None => exists a b, Js.message e = (a ++ benignMarker ++ b)%string
       end).
Proof.
  intros Hfail.
  assert (Hrun : completion (checkpointTx round conn (Some kp))
                 = Js.Normal (Js.includes (errorLogs e) benignMarker)).
  { unfold sendCheckpointTx, events, completion, Buffer.writeUInt8, log, lift,
      handleFatalError, sendAndConfirmTransaction, ret, add.
    rewrite checkpoint_write. run. rewrite Hfail. run.
    destruct (Js.includes (errorLogs e) benignMarker); reflexivity. }
  rewrite Hrun. unfold errorLogs.
  destruct (Js.logs e) as [lines|].
  - rewrite includes_joined_lines by (reflexivity || discriminate).
    split.
    + intros [= Hex]. apply existsb_exists in Hex as (line & Hin & Hinc).
      apply includes_iff in Hinc as (a & b & Hab). now exists line, a, b.
    + intros (line & a & b & Hin & Hab). f_equal.
      apply existsb_exists. exists line. split; [exact Hin|].
      apply includes_iff. now exists a, b.
  - split.
    + intros [= Hinc]. now apply includes_iff.
    + intros Hab. f_equal. now apply includes_iff.
Qed.

End Properties.

(** ** The claim about the squares mask *)

(** C4. Bit [id - 1] of the mask is set exactly when some target of the
    selection carries [id] and [id] lies in [1, 25]; targets outside that
    range change nothing (the function is total, so they raise nothing);
    the mask stays below [2^25]; a duplicate-free selection within range
    sets as many bits as it has targets; and the mask does not depend on
    the order of the selection. *)
Theorem squares_mask_bits (targets : list Target) :
  (forall k,
     Z.testbit (createSquaresMask targets) (k - 1) = true
     <-> selects targets k /\ 1 <= k <= 25)
  /\ createSquaresMask targets = createSquaresMask (filter inRange targets)
  /\ 0 <= createSquaresMask targets < 2 ^ 25
  /\ (NoDup (map id targets) ->
      Forall (fun t => 1 <= id t <= 25) targets ->
      popcount (createSquaresMask targets) = length targets)
  /\ (forall targets',
        Permutation targets targets' ->
        createSquaresMask targets' = createSquaresMask targets).
Proof.
  split; [exact (createSquaresMask_bit targets)|].
  split; [exact (createSquaresMask_filter targets)|].
  split; [exact (createSquaresMask_range targets)|].
  split; [exact (createSquaresMask_popcount targets)|].
  intros targets'. exact (createSquaresMask_perm targets targets').
Qed.

(** ** The claims on the stand-in network *)

Example createSquaresMask_scenario :
  createSquaresMask [mkTarget 1; mkTarget 25; mkTarget 26] = 16777217.
Proof. reflexivity. Qed.

(** The three settlement scenarios of round 10: which instructions of the
    submitted transaction are checkpoints. *)
Example scenario_stale :
  map isCheckpoint (Demo.submitted Demo.stale) = [false; false; true; false; false].
Proof. vm_compute. reflexivity. Qed.

Example scenario_current :
  map isCheckpoint (Demo.submitted Demo.current) = [false; false; false; false].
Proof. vm_compute. reflexivity. Qed.

Example scenario_clean :
  map isCheckpoint (Demo.submitted Demo.clean) = [false; false; false; false].
Proof. vm_compute. reflexivity. Qed.

(** The amounts are binary64 quotients: 0.001 SOL is 1000000 lamports, and
    0.5 SOL comes out one lamport short of 500000000. *)
Example stake_of_a_thousandth :
  Js.floorZ (0.001 / Demo.SOL_PER_LAMPORT)%float = Some 1000000.
Proof. vm_compute. reflexivity. Qed.

Example stake_of_a_half :
  Js.floorZ (0.5 / Demo.SOL_PER_LAMPORT)%float = Some 499999999.
Proof. vm_compute. reflexivity. Qed.

Lemma squares_mask_bits_witness :
  NoDup (map id Demo.targets)
  /\ Forall (fun t => 1 <= id t <= 25) Demo.targets
  /\ popcount (createSquaresMask Demo.targets) = 2%nat
  /\ createSquaresMask [mkTarget 25; mkTarget 1] = createSquaresMask Demo.targets.
Proof.
  assert (Hnd : NoDup (map id Demo.targets)).
  { repeat constructor; simpl; intuition discriminate. }
  assert (Hall : Forall (fun t => 1 <= id t <= 25) Demo.targets).
  { repeat constructor; simpl; lia. }
  destruct (squares_mask_bits Demo.targets) as (_ & _ & _ & Hcount & Hperm).
  split; [exact Hnd|]. split; [exact Hall|]. split.
  - exact (Hcount Hnd Hall).
  - apply Hperm. apply perm_swap.
Defined.

Lemma checkpoint_prepended_when_stale_witness :
  Demo.targets <> []
  /\ checkpoint_id (mkMiner 8 7) <> round_id (mkMiner 8 7)
  /\ round_id (mkMiner 8 7) < currentRoundId Demo.state
  /\ sent (events (Demo.sendDeployTx Demo.state Demo.targets Demo.stale (Some Demo.signer)))
     = [expectedTx Demo.ORE_PROGRAM_ID Demo.SYSTEM_PROGRAM_ID Demo.getBoardPda
          Demo.getTreasuryPda Demo.getRoundPda Demo.getMinerPda Demo.getAutomationPda
          Demo.signer 10 8 7 1000000 20000 16777217].
Proof.
  assert (Hne : Demo.targets <> []) by discriminate.
  assert (Hdirty : checkpoint_id (mkMiner 8 7) <> round_id (mkMiner 8 7)) by discriminate.
  assert (Hstale : round_id (mkMiner 8 7) < currentRoundId Demo.state) by reflexivity.
  assert (Hready : roundReady Demo.getRoundPda Demo.parseRound Demo.stale
                     (currentRoundId Demo.state)).
  { exists (mkAccountInfo [7]), (mkRound (Some 7)), 7. repeat split. }
  split; [exact Hne|]. split; [exact Hdirty|]. split; [exact Hstale|].
  refine (proj1 (proj2
    (checkpoint_prepended_when_stale Demo.ORE_PROGRAM_ID Demo.SYSTEM_PROGRAM_ID
       Demo.SOL_PER_LAMPORT Demo.getBoardPda Demo.getTreasuryPda Demo.getRoundPda
       Demo.getMinerPda Demo.getAutomationPda Demo.parseMiner Demo.parseRound
       Demo.state Demo.targets Demo.stale Demo.signer (mkAccountInfo [8; 7])
       (mkMiner 8 7) Hne Hready eq_refl eq_refl Hdirty Hstale))
    1000000 20000 _ _ _ _).
  - vm_compute. reflexivity.
  - lia.
  - vm_compute. reflexivity.
  - lia.
Defined.

Lemma submitted_stale :
  In (Send (Demo.submitted Demo.stale) [Demo.signer])
     (events (Demo.sendDeployTx Demo.state Demo.targets Demo.stale (Some Demo.signer))).
Proof. vm_compute. right. left. reflexivity. Qed.

Lemma stake_and_fee_amounts_witness :
  Js.floorZ (customDeployAmount Demo.state / Demo.SOL_PER_LAMPORT)%float = Some 1000000
  /\ exists f,
       Js.floorZ (customDeployAmount Demo.state * Js.ofLength 2 * 0.01
                  / Demo.SOL_PER_LAMPORT)%float = Some f
       /\ (existsb isTransfer (Demo.submitted Demo.stale) = true <-> 0 < f).
Proof.
  split; [vm_compute; reflexivity|].
  destruct (stake_and_fee_amounts Demo.ORE_PROGRAM_ID Demo.SYSTEM_PROGRAM_ID
              Demo.SOL_PER_LAMPORT Demo.getBoardPda Demo.getTreasuryPda Demo.getRoundPda
              Demo.getMinerPda Demo.getAutomationPda Demo.parseMiner Demo.parseRound
              Demo.state Demo.targets Demo.stale (Some Demo.signer)
              (Demo.submitted Demo.stale) [Demo.signer] submitted_stale)
    as (_ & amt & f & pre & keys & _ & _ & Hf & _ & _ & Hiff & _).
  exists f. split; [exact Hf|exact Hiff].
Defined.

Lemma instruction_order_witness :
  exists kp mr mc amt f,
    Some Demo.signer = Some kp
    /\ minerProgress Demo.getMinerPda Demo.parseMiner Demo.stale (publicKey kp) mr mc
    /\ stakeLamports Demo.SOL_PER_LAMPORT Demo.state = Some amt
    /\ feeLamports Demo.SOL_PER_LAMPORT Demo.state (length Demo.targets) = Some f
    /\ Demo.submitted Demo.stale
       = [SetComputeUnitLimit 750000; SetComputeUnitPrice 100000]
         ++ (if negb (mr =? mc) && (mr <? currentRoundId Demo.state)
             then [checkpointIx Demo.ORE_PROGRAM_ID Demo.SYSTEM_PROGRAM_ID
                     Demo.getBoardPda Demo.getTreasuryPda Demo.getRoundPda
                     Demo.getMinerPda kp mr]
             else [])
         ++ (if f >? 0 then [Transfer (publicKey kp) feeRecipient f] else [])
         ++ [deployIx Demo.ORE_PROGRAM_ID Demo.SYSTEM_PROGRAM_ID Demo.getBoardPda
               Demo.getRoundPda Demo.getMinerPda Demo.getAutomationPda kp
               (currentRoundId Demo.state) amt (createSquaresMask Demo.targets)].
Proof.
  exact (instruction_order Demo.ORE_PROGRAM_ID Demo.SYSTEM_PROGRAM_ID
           Demo.SOL_PER_LAMPORT Demo.getBoardPda Demo.getTreasuryPda Demo.getRoundPda
           Demo.getMinerPda Demo.getAutomationPda Demo.parseMiner Demo.parseRound
           Demo.state Demo.targets Demo.stale (Some Demo.signer)
           (Demo.submitted Demo.stale) [Demo.signer] submitted_stale).
Defined.

Lemma no_checkpoint_when_round_is_current_witness :
  checkpoint_id (mkMiner 10 9) <> round_id (mkMiner 10 9)
  /\ currentRoundId Demo.state <= round_id (mkMiner 10 9)
  /\ In (Log "warning: state dirty but round 10 is current. skipping checkpoint.")
        (events (Demo.sendDeployTx Demo.state Demo.targets Demo.current (Some Demo.signer)))
  /\ existsb isCheckpoint (Demo.submitted Demo.current) = false
  /\ sent (events (Demo.sendDeployTx Demo.state Demo.targets Demo.current
                     (Some Demo.signer)))
     = [[SetComputeUnitLimit 750000; SetComputeUnitPrice 100000;
         Transfer (publicKey Demo.signer) feeRecipient 20000;
         deployIx Demo.ORE_PROGRAM_ID Demo.SYSTEM_PROGRAM_ID Demo.getBoardPda
           Demo.getRoundPda Demo.getMinerPda Demo.getAutomationPda Demo.signer
           10 1000000 16777217]].
Proof.
  assert (Hne : Demo.targets <> []) by discriminate.
  assert (Hdirty : checkpoint_id (mkMiner 10 9) <> round_id (mkMiner 10 9)) by discriminate.
  assert (Hcur : currentRoundId Demo.state <= round_id (mkMiner 10 9)) by (simpl; lia).
  assert (Hready : roundReady Demo.getRoundPda Demo.parseRound Demo.current
                     (currentRoundId Demo.state)).
  { exists (mkAccountInfo [7]), (mkRound (Some 7)), 7. repeat split. }
  destruct (no_checkpoint_when_round_is_current Demo.ORE_PROGRAM_ID
              Demo.SYSTEM_PROGRAM_ID Demo.SOL_PER_LAMPORT Demo.getBoardPda
              Demo.getTreasuryPda Demo.getRoundPda Demo.getMinerPda
              Demo.getAutomationPda Demo.parseMiner Demo.parseRound
              Demo.state Demo.targets Demo.current Demo.signer
              (mkAccountInfo [10; 9]) (mkMiner 10 9)
              Hne Hready eq_refl eq_refl Hdirty Hcur)
    as (Hwarn & Hnone & Hsent).
  split; [exact Hdirty|]. split; [exact Hcur|]. split; [exact Hwarn|]. split.
  - apply (Hnone _ [Demo.signer]). vm_compute. right. right. left. reflexivity.
  - apply (Hsent 1000000 20000).
    + vm_compute. reflexivity.
    + lia.
    + vm_compute. reflexivity.
    + lia.
Defined.

Lemma no_checkpoint_when_clean_witness :
  checkpoint_id (mkMiner 9 9) = round_id (mkMiner 9 9)
  /\ existsb isCheckpoint (Demo.submitted Demo.clean) = false
  /\ existsb isCheckpoint (Demo.submitted Demo.newcomer) = false.
Proof.
  split; [reflexivity|]. split.
  - apply (no_checkpoint_when_clean Demo.ORE_PROGRAM_ID Demo.SYSTEM_PROGRAM_ID
             Demo.SOL_PER_LAMPORT Demo.getBoardPda Demo.getTreasuryPda Demo.getRoundPda
             Demo.getMinerPda Demo.getAutomationPda Demo.parseMiner Demo.parseRound
             Demo.state Demo.targets Demo.clean Demo.signer) with (sg := [Demo.signer]).
    + right. exists (mkAccountInfo [9; 9]), (mkMiner 9 9). repeat split.
    + vm_compute. right. left. reflexivity.
  - apply (no_checkpoint_when_clean Demo.ORE_PROGRAM_ID Demo.SYSTEM_PROGRAM_ID
             Demo.SOL_PER_LAMPORT Demo.getBoardPda Demo.getTreasuryPda Demo.getRoundPda
             Demo.getMinerPda Demo.getAutomationPda Demo.parseMiner Demo.parseRound
             Demo.state Demo.targets Demo.newcomer Demo.signer) with (sg := [Demo.signer]).
    + left. reflexivity.
    + vm_compute. right. left. reflexivity.
Defined.

Lemma deploy_payload_layout_witness :
  exists pre keys,
    Demo.submitted Demo.stale
    = pre ++ [TransactionInstruction keys Demo.ORE_PROGRAM_ID
                [6; 64; 66; 15; 0; 0; 0; 0; 0; 1; 0; 0; 1]].
Proof.
  destruct (deploy_payload_layout Demo.ORE_PROGRAM_ID Demo.SYSTEM_PROGRAM_ID
              Demo.SOL_PER_LAMPORT Demo.getBoardPda Demo.getTreasuryPda Demo.getRoundPda
              Demo.getMinerPda Demo.getAutomationPda Demo.parseMiner Demo.parseRound
              Demo.state Demo.targets Demo.stale (Some Demo.signer)
              (Demo.submitted Demo.stale) [Demo.signer] submitted_stale)
    as (pre & keys & amt & payload & Htx & Hs & _ & -> & _).
  exists pre, keys. rewrite Htx. repeat f_equal.
  assert (Hamt : amt = 1000000).
  { vm_compute in Hs. now injection Hs as <-. }
  subst amt. reflexivity.
Defined.

Lemma early_exit_without_submission_witness :
  getAccountInfo Demo.roundless (Demo.getRoundPda (currentRoundId Demo.state))
  = Js.Normal None
  /\ Demo.sendDeployTx Demo.state Demo.targets Demo.roundless (Some Demo.signer)
     = ([Log "deploy skipped: round 10 account not found. Waiting for next tick."],
        Js.Normal tt).
Proof.
  assert (Hnone : getAccountInfo Demo.roundless
                    (Demo.getRoundPda (currentRoundId Demo.state)) = Js.Normal None)
    by reflexivity.
  destruct (early_exit_without_submission Demo.ORE_PROGRAM_ID Demo.SYSTEM_PROGRAM_ID
              Demo.SOL_PER_LAMPORT Demo.getBoardPda Demo.getTreasuryPda Demo.getRoundPda
              Demo.getMinerPda Demo.getAutomationPda Demo.parseMiner Demo.parseRound
              Demo.state Demo.targets Demo.roundless (Some Demo.signer)
              (or_intror (or_intror (or_introl Hnone))))
    as (_ & _ & Hret & _ & _ & Hlog & _).
  split; [exact Hnone|].
  apply injective_projections.
  - apply Hlog; [discriminate|discriminate|exact Hnone].
  - exact Hret.
Defined.

Lemma fee_recipient_is_fixed_witness :
  In (Transfer (publicKey Demo.signer)
        (PublicKey_new "oREVE663st4oVqRp31TdEKdjqUYmZkJ3Vofi1zEAPro") 20000)
     (Demo.submitted Demo.stale)
  /\ feeLamports Demo.SOL_PER_LAMPORT Demo.state (length Demo.targets) = Some 20000.
Proof.
  assert (Hin : In (Transfer (publicKey Demo.signer)
                      (PublicKey_new "oREVE663st4oVqRp31TdEKdjqUYmZkJ3Vofi1zEAPro") 20000)
                   (Demo.submitted Demo.stale)).
  { vm_compute. right. right. right. left. reflexivity. }
  split; [exact Hin|].
  destruct (fee_recipient_is_fixed Demo.ORE_PROGRAM_ID Demo.SYSTEM_PROGRAM_ID
              Demo.SOL_PER_LAMPORT Demo.getBoardPda Demo.getTreasuryPda Demo.getRoundPda
              Demo.getMinerPda Demo.getAutomationPda Demo.parseMiner Demo.parseRound
              Demo.state Demo.targets Demo.stale (Some Demo.signer)
              (Demo.submitted Demo.stale) [Demo.signer] _ _ _ submitted_stale Hin)
    as (kp & _ & _ & _ & Hf & _).
  exact Hf.
Defined.

Lemma checkpoint_failure_classification_witness :
  Js.includes (errorLogs Demo.alreadySettled) benignMarker = true
  /\ completion (Demo.sendCheckpointTx 8 Demo.rejecting (Some Demo.signer)) = Js.Normal true
  /\ fatals (events (Demo.sendCheckpointTx 8 Demo.rejecting (Some Demo.signer))) = [].
Proof.
  assert (Hmark : Js.includes (errorLogs Demo.alreadySettled) benignMarker = true)
    by reflexivity.
  destruct (checkpoint_failure_classification Demo.ORE_PROGRAM_ID
              Demo.SYSTEM_PROGRAM_ID Demo.SOL_PER_LAMPORT Demo.getBoardPda
              Demo.getTreasuryPda Demo.getRoundPda Demo.getMinerPda
              Demo.getAutomationPda Demo.parseMiner Demo.parseRound
              8 Demo.rejecting Demo.signer Demo.alreadySettled eq_refl)
    as (Hbenign & _ & _).
  destruct (Hbenign Hmark) as [Hev Hret].
  split; [exact Hmark|]. split; [exact Hret|].
  unfold Demo.sendCheckpointTx. rewrite Hev. reflexivity.
Defined.

(** C2 as stated fails on the deploy cycle: a deploy submission rejected
    with the marker in its logs is handed to the fatal-error handler, and no
    line reports a success. *)
Lemma deploy_failure_with_marker_is_fatal :
  Js.includes (errorLogs Demo.alreadySettled) benignMarker = true
  /\ confirm Demo.rejecting (Demo.submitted Demo.rejecting) [Demo.signer]
     = Js.Throw Demo.alreadySettled
  /\ Demo.sendDeployTx Demo.state Demo.targets Demo.rejecting (Some Demo.signer)
     = ([Log "sending deploy tx for 2 target(s)...";
         Send (Demo.submitted Demo.rejecting) [Demo.signer];
         Fatal Demo.alreadySettled None],
        Js.Normal tt).
Proof. vm_compute. repeat split. Qed.

(** * Further properties *)

(** ** The signature pattern *)

Lemma stripPrefix_iff (p s t : string) :
  stripPrefix p s = Some t <-> s = (p ++ t)%string.
Proof.
  revert s. induction p as [|c p IH]; intros s.
  - destruct s; simpl; split; congruence.
  - destruct s as [|d s]; simpl; [split; discriminate|].
    destruct (Ascii.eqb_spec c d) as [->|Hcd].
    + rewrite IH. split; [now intros ->|now intros [= ->]].
    + split; [discriminate|]. intros [= Hc _]. congruence.
Qed.

Lemma alnumRun_spec n : forall s,
  allAlnum (alnumRun n s) = true
  /\ (String.length (alnumRun n s) <= n)%nat
  /\ exists b, s = (alnumRun n s ++ b)%string.
Proof.
  induction n as [|k IH]; intros s.
  - destruct s; simpl; (split; [reflexivity|split; [lia|eexists; reflexivity]]).
  - destruct s as [|c s]; simpl.
    + split; [reflexivity|split; [lia|now exists EmptyString]].
    + destruct (isAlnum c) eqn:Ec; simpl.
      * destruct (IH s) as (Ha & Hl & b & Hb).
        rewrite Ec, Ha. split; [reflexivity|split; [lia|]].
        exists b. now rewrite <- Hb.
      * split; [reflexivity|split; [lia|eexists; reflexivity]].
Qed.

Lemma alnumRun_long n : forall r b,
  allAlnum r = true ->
  (Nat.min n (String.length r) <= String.length (alnumRun n (r ++ b)))%nat.
Proof.
  induction n as [|k IH]; intros r b Hr; [simpl; lia|].
  destruct r as [|c r]; [simpl; lia|].
  simpl in Hr. apply andb_true_iff in Hr as [Hc Hr].
  cbn [String.append alnumRun]. rewrite Hc.
  cbn [String.length]. specialize (IH r b Hr).
  destruct (Nat.min_spec (S k) (S (String.length r))) as [[? ->]|[? ->]];
    destruct (Nat.min_spec k (String.length r)) as [[? E]|[? E]]; rewrite E in IH; lia.
Qed.

Lemma matchSignature_unfold (s : string) :
  matchSignature s
  = match signatureHere s with
    | Some sig => Some sig
    | None =>
        match s with
        | String _ rest => matchSignature rest
        | EmptyString => None
        end
    end.
Proof. destruct s; reflexivity. Qed.

Lemma signatureHere_sound s sig :
  signatureHere s = Some sig ->
  allAlnum sig = true
  /\ (87 <= String.length sig <= 88)%nat
  /\ exists b, s = ("Transaction " ++ sig ++ b)%string.
Proof.
  unfold signatureHere.
  destruct (stripPrefix "Transaction " s) as [tail|] eqn:Es; [|discriminate].
  apply stripPrefix_iff in Es.
  destruct (alnumRun_spec 88 tail) as (Ha & Hl & b & Hb).
  destruct (87 <=? String.length (alnumRun 88 tail))%nat eqn:El; [|discriminate].
  intros Hsig. assert (sig = alnumRun 88 tail) by congruence. subst sig.
  apply Nat.leb_le in El.
  split; [exact Ha|]. split; [lia|].
  exists b. rewrite Es. now rewrite <- Hb.
Qed.

(** X8. The signature handed to [getLogs] is a run of 87 or 88 letters and
    digits that follows the word Transaction and a space in the message;
    and a message that holds such a run of at least 87 always yields one. *)
Theorem matchSignature_extracts (s : string) :
  (forall sig,
     matchSignature s = Some sig ->
     allAlnum sig = true
     /\ (87 <= String.length sig <= 88)%nat
     /\ exists a b, s = (a ++ "Transaction " ++ sig ++ b)%string)
  /\ (forall a r b,
        s = (a ++ "Transaction " ++ r ++ b)%string ->
        allAlnum r = true -> (87 <= String.length r)%nat ->
        matchSignature s <> None).
Proof.
  split.
  - induction s as [|c s IH]; intros sig; rewrite matchSignature_unfold.
    + destruct (signatureHere EmptyString) eqn:Eh; [|discriminate].
      intros [= ->]. apply signatureHere_sound in Eh as (Ha & Hl & b & Hb).
      discriminate Hb.
    + destruct (signatureHere (String c s)) as [found|] eqn:Eh.
      * intros [= ->]. apply signatureHere_sound in Eh as (Ha & Hl & b & Hb).
        split; [exact Ha|]. split; [exact Hl|]. now exists EmptyString, b.
      * intros Hm. destruct (IH sig Hm) as (Ha & Hl & a & b & Hab).
        split; [exact Ha|]. split; [exact Hl|].
        exists (String c a), b. simpl. now rewrite Hab.
  - intros a. revert s. induction a as [|c a IH]; intros s r b Hs Hr Hlen.
    + rewrite matchSignature_unfold.
      assert (Hh : signatureHere s <> None); [|destruct (signatureHere s); congruence].
      unfold signatureHere.
      assert (Es : stripPrefix "Transaction " s = Some (r ++ b)%string)
        by (apply stripPrefix_iff; exact Hs).
      rewrite Es.
      pose proof (alnumRun_long 88 r b Hr) as Hrun.
      assert (El : (87 <=? String.length (alnumRun 88 (r ++ b)))%nat = true)
        by (apply Nat.leb_le; lia).
      cbv zeta. rewrite El. discriminate.
    + rewrite matchSignature_unfold. subst s.
      destruct (signatureHere _); [discriminate|].
      change ((String c a ++ "Transaction " ++ r ++ b)%string)
        with (String c (a ++ "Transaction " ++ r ++ b)%string).
      now apply (IH _ r b).
Qed.

(** ** Masks of compound selections *)

(** X9. The mask of two selections put together is the union of their masks. *)
Theorem squares_mask_app (a b : list Target) :
  createSquaresMask (a ++ b) = Z.lor (createSquaresMask a) (createSquaresMask b).
Proof.
  apply Z.bits_inj'. intros i Hi.
  rewrite Z.lor_spec, !createSquaresMask_testbit by exact Hi.
  apply existsb_app.
Qed.

(** X10. Only the identifiers within [1, 25] count, and each counts once: two
    selections that carry the same identifiers of that range have the same
    mask, and the mask is zero exactly when no identifier is in range. *)
Theorem squares_mask_extensional (a b : list Target) :
  ((forall k, 1 <= k <= 25 -> (selects a k <-> selects b k)) ->
   createSquaresMask a = createSquaresMask b)
  /\ (createSquaresMask a = 0 <-> forall t, In t a -> ~ 1 <= id t <= 25).
Proof.
  split.
  - intros Hsame. apply Z.bits_inj'. intros i Hi.
    apply eq_true_iff_eq.
    replace i with (i + 1 - 1) by lia.
    rewrite !createSquaresMask_bit.
    split; intros [Hs Hk]; (split; [apply (Hsame _ Hk); exact Hs|exact Hk]).
  - split.
    + intros Hz t Hin Hr.
      assert (Hbit : Z.testbit (createSquaresMask a) (id t - 1) = true).
      { apply createSquaresMask_bit. split; [now exists t|exact Hr]. }
      rewrite Hz, Z.bits_0 in Hbit. discriminate.
    + intros Hnone. apply Z.bits_inj'. intros i Hi. rewrite Z.bits_0.
      apply not_true_is_false. intros Hbit.
      replace i with (i + 1 - 1) in Hbit by lia.
      apply createSquaresMask_bit in Hbit as [(t & Hin & Ht) Hk].
      apply (Hnone t Hin). lia.
Qed.

(** ** The order of versions *)

Lemma keyLt_irrefl k : ~ keyLt k k.
Proof. destruct k as [[a b] c]. unfold keyLt. lia. Qed.

Lemma keyLt_trans k1 k2 k3 : keyLt k1 k2 -> keyLt k2 k3 -> keyLt k1 k3.
Proof.
  destruct k1 as [[a1 b1] c1], k2 as [[a2 b2] c2], k3 as [[a3 b3] c3].
  unfold keyLt. lia.
Qed.

Lemma keyLt_total k1 k2 : keyLt k1 k2 \/ k1 = k2 \/ keyLt k2 k1.
Proof.
  destruct k1 as [[a1 b1] c1], k2 as [[a2 b2] c2]. unfold keyLt.
  destruct (Z.lt_trichotomy a1 a2) as [?|[->|?]]; [lia| |lia].
  destruct (Z.lt_trichotomy b1 b2) as [?|[->|?]]; [lia| |lia].
  destruct (Z.lt_trichotomy c1 c2) as [?|[->|?]]; [lia| |lia].
  right. left. reflexivity.
Qed.

Lemma ltb_key x y :
  PrimFloat.is_nan x = false -> PrimFloat.is_nan y = false ->
  ((x <? y)%float = true <-> keyLt (floatKey x) (floatKey y)).
Proof.
  unfold PrimFloat.is_nan. rewrite !negb_false_iff, !eqb_spec, ltb_spec.
  unfold floatKey, SFeqb, SFltb, keyLt.
  destruct (Prim2SF x) as [sx|sx| |sx mx ex], (Prim2SF y) as [sy|sy| |sy my ey];
    try destruct sx; try destruct sy; cbn [SFcompare];
    intros Hx Hy; try discriminate Hx; try discriminate Hy;
    try (split; [discriminate|lia]);
    try (split; [intros _; lia|intros _; reflexivity]).
  - destruct (Z.compare_spec ex ey) as [->|Hlt|Hgt].
    + change (PosDef.Pos.compare_cont Eq mx my) with (Pos.compare mx my).
      destruct (Pos.compare_spec mx my) as [->|Hm|Hm]; cbn [CompOpp];
        first [ split; [discriminate|lia]
              | split; [intros _; lia|intros _; reflexivity] ].
    + split; [discriminate|lia].
    + split; [intros _; lia|intros _; reflexivity].
  - destruct (Z.compare_spec ex ey) as [->|Hlt|Hgt].
    + change (PosDef.Pos.compare_cont Eq mx my) with (Pos.compare mx my).
      destruct (Pos.compare_spec mx my) as [->|Hm|Hm];
        first [ split; [discriminate|lia]
              | split; [intros _; lia|intros _; reflexivity] ].
    + split; [intros _; lia|intros _; reflexivity].
    + split; [discriminate|lia].
Qed.

Lemma orZero_not_nan x : PrimFloat.is_nan (orZero x) = false.
Proof.
  destruct x as [v|]; [|reflexivity]. unfold orZero.
  destruct (PrimFloat.is_nan v) eqn:En; [reflexivity|].
  destruct (PrimFloat.is_zero v); [reflexivity|exact En].
Qed.

Lemma orZero_lt v1 v2 i :
  (orZero (nth_error v1 i) <? orZero (nth_error v2 i))%float = true
  <-> keyLt (partKey v1 i) (partKey v2 i).
Proof. apply ltb_key; apply orZero_not_nan. Qed.

Lemma partKey_beyond v i : (length v <= i)%nat -> partKey v i = (2, 0, 0).
Proof.
  intros Hi. unfold partKey.
  replace (nth_error v i) with (@None float) by (symmetry; now apply nth_error_None).
  reflexivity.
Qed.

Lemma compareFrom_iff v1 v2 fuel : forall i,
  compareFrom v1 v2 i fuel = true
  <-> exists j,
        (i <= j < i + fuel)%nat
        /\ (forall t, (i <= t < j)%nat -> partKey v1 t = partKey v2 t)
        /\ keyLt (partKey v1 j) (partKey v2 j).
Proof.
  induction fuel as [|turns IH]; intros i; cbn [compareFrom].
  - split; [discriminate|]. intros (j & Hj & _). lia.
  - cbv zeta.
    destruct (orZero (nth_error v1 i) <? orZero (nth_error v2 i))%float eqn:E12.
    + split; [intros _|reflexivity].
      exists i. split; [lia|]. split; [intros t Ht; lia|].
      now apply orZero_lt.
    + assert (N12 : ~ keyLt (partKey v1 i) (partKey v2 i)).
      { intros Hk. apply orZero_lt in Hk. congruence. }
      destruct (orZero (nth_error v2 i) <? orZero (nth_error v1 i))%float eqn:E21.
      * apply orZero_lt in E21. split; [discriminate|].
        intros (j & Hj & Hsame & Hlt). exfalso.
        destruct (Nat.eq_dec j i) as [->|Hne]; [contradiction|].
        rewrite (Hsame i) in E21 by lia.
        exact (keyLt_irrefl _ E21).
      * assert (N21 : ~ keyLt (partKey v2 i) (partKey v1 i)).
        { intros Hk. apply orZero_lt in Hk. congruence. }
        assert (Heq : partKey v1 i = partKey v2 i).
        { destruct (keyLt_total (partKey v1 i) (partKey v2 i)) as [?|[?|?]];
            [contradiction|assumption|contradiction]. }
        rewrite IH. split.
        -- intros (j & Hj & Hsame & Hlt). exists j.
           split; [lia|]. split; [|exact Hlt].
           intros t Ht. destruct (Nat.eq_dec t i) as [->|Hne]; [exact Heq|].
           apply Hsame. lia.
        -- intros (j & Hj & Hsame & Hlt).
           destruct (Nat.eq_dec j i) as [->|Hne]; [contradiction|].
           exists j. split; [lia|]. split; [|exact Hlt].
           intros t Ht. apply Hsame. lia.
Qed.

Lemma compareFrom_newer v1 v2 :
  compareFrom v1 v2 0 (Nat.max (length v1) (length v2)) = true <-> newer v1 v2.
Proof.
  rewrite compareFrom_iff. unfold newer. split.
  - intros (j & _ & Hsame & Hlt). exists j. split; [|exact Hlt].
    intros t Ht. apply Hsame. lia.
  - intros (j & Hsame & Hlt). exists j. split; [|split; [|exact Hlt]].
    + destruct (Nat.lt_ge_cases j (Nat.max (length v1) (length v2))) as [?|Hge]; [lia|].
      exfalso. rewrite !partKey_beyond in Hlt by lia.
      exact (keyLt_irrefl _ Hlt).
    + intros t Ht. apply Hsame. lia.
Qed.

Lemma newer_irrefl v : ~ newer v v.
Proof. intros (j & _ & Hlt). exact (keyLt_irrefl _ Hlt). Qed.

Lemma newer_asym v1 v2 : newer v1 v2 -> ~ newer v2 v1.
Proof.
  intros (j & Hs & Hl) (k & Hs' & Hl').
  destruct (Nat.lt_trichotomy j k) as [H|[->|H]].
  - rewrite (Hs' j H) in Hl. exact (keyLt_irrefl _ Hl).
  - exact (keyLt_irrefl _ (keyLt_trans _ _ _ Hl Hl')).
  - rewrite (Hs k H) in Hl'. exact (keyLt_irrefl _ Hl').
Qed.

Lemma newer_trans v1 v2 v3 : newer v1 v2 -> newer v2 v3 -> newer v1 v3.
Proof.
  intros (j & Hs & Hl) (k & Hs' & Hl').
  destruct (Nat.lt_trichotomy j k) as [H|[->|H]].
  - exists j. split.
    + intros t Ht. rewrite (Hs t Ht). apply Hs'. lia.
    + rewrite <- (Hs' j H). exact Hl.
  - exists k. split.
    + intros t Ht. rewrite (Hs t Ht). now apply Hs'.
    + exact (keyLt_trans _ _ _ Hl Hl').
  - exists k. split.
    + intros t Ht. rewrite (Hs t) by lia. now apply Hs'.
    + rewrite (Hs k H). exact Hl'.
Qed.

Lemma newer_same_keys v1 v1' v2 v2' :
  (forall i, partKey v1 i = partKey v1' i) ->
  (forall i, partKey v2 i = partKey v2' i) ->
  newer v1 v2 <-> newer v1' v2'.
Proof.
  intros H1 H2. unfold newer.
  split; intros (j & Hs & Hl); exists j; split.
  - intros t Ht. rewrite <- H1, <- H2. now apply Hs.
  - now rewrite <- H1, <- H2.
  - intros t Ht. rewrite H1, H2. now apply Hs.
  - now rewrite H1, H2.
Qed.

Lemma splitDots_nonempty text : splitDots text <> [].
Proof.
  destruct text as [|c rest]; cbn [splitDots]; [discriminate|].
  destruct (Ascii.eqb c "."); [discriminate|].
  destruct (splitDots rest); discriminate.
Qed.

Lemma splitDots_app (a b : string) :
  splitDots (a ++ "." ++ b) = splitDots a ++ splitDots b.
Proof.
  induction a as [|c a IH].
  - reflexivity.
  - change ((String c a ++ "." ++ b)%string) with (String c (a ++ "." ++ b)%string).
    cbn [splitDots]. rewrite IH.
    destruct (Ascii.eqb c "."); [reflexivity|].
    pose proof (splitDots_nonempty a) as Hne.
    destruct (splitDots a); [contradiction|reflexivity].
Qed.

Lemma partKey_padded (v tail : list float) :
  Forall (fun x => orZero (Some x) = 0%float) tail ->
  forall i, partKey (v ++ tail) i = partKey v i.
Proof.
  intros Htail i. unfold partKey.
  destruct (Nat.lt_ge_cases i (length v)) as [Hlt|Hge].
  - now rewrite nth_error_app1.
  - rewrite nth_error_app2 by exact Hge.
    replace (nth_error v i) with (@None float) by (symmetry; now apply nth_error_None).
    destruct (nth_error tail (i - length v)) as [x|] eqn:Ex; [|reflexivity].
    apply nth_error_In in Ex. rewrite Forall_forall in Htail.
    now rewrite (Htail x Ex).
Qed.

Section VersionOrder.
Variable Number : string -> float.

(** X11. The update test is a strict order on version strings, whatever the
    texts between the dots convert to: no version is newer than itself,
    two versions are never each newer than the other, and newer than newer
    is newer. *)
Theorem compareVersions_strict_order (a b c : string) :
  compareVersions Number a a = false
  /\ (compareVersions Number a b = true -> compareVersions Number b a = false)
  /\ (compareVersions Number a b = true -> compareVersions Number b c = true ->
      compareVersions Number a c = true).
Proof.
  unfold compareVersions. cbv zeta. split; [|split].
  - apply not_true_is_false. rewrite compareFrom_newer. apply newer_irrefl.
  - rewrite compareFrom_newer. intros H.
    apply not_true_is_false. rewrite compareFrom_newer. now apply newer_asym.
  - rewrite !compareFrom_newer. apply newer_trans.
Qed.

(** X12. Components at the end of a version that convert to zero or to NaN (a
    word, an empty text) change nothing: the version with them and the
    version without compare alike against every other version. *)
Theorem compareVersions_trailing (v tail other : string) :
  Forall (fun part => orZero (Some (Number part)) = 0%float) (splitDots tail) ->
  compareVersions Number (v ++ "." ++ tail) other = compareVersions Number v other
  /\ compareVersions Number other (v ++ "." ++ tail) = compareVersions Number other v.
Proof.
  intros Htail.
  assert (Hpad : forall i,
            partKey (map Number (splitDots (v ++ "." ++ tail))) i
            = partKey (map Number (splitDots v)) i).
  { rewrite splitDots_app, map_app. apply partKey_padded.
    apply Forall_map. exact Htail. }
  unfold compareVersions. cbv zeta.
  split; apply eq_true_iff_eq; rewrite !compareFrom_newer;
    apply newer_same_keys; auto.
Qed.

End VersionOrder.

(** ** Runs of scripts *)

Lemma writes_app a b : writes (a ++ b) = writes a ++ writes b.
Proof. apply flat_map_app. Qed.

Lemma forEach_cons {A} (x : A) rest body past :
  forEach (x :: rest) body past
  = match body x past with
    | (done, Proc.Settled (Js.Normal _)) =>
        let (more, r) := forEach rest body (past ++ done) in (done ++ more, r)
    | (done, Proc.Settled (Js.Throw e)) => (done, Proc.Settled (Js.Throw e))
    | (done, Proc.Uncaught e) => (done, Proc.Uncaught e)
    end.
Proof. reflexivity. Qed.

(** Whatever a loop does, one of its turns did. *)
Lemma forEach_action_in {A} (xs : list A) body : forall past a,
  In a (Proc.actions (forEach xs body) past) ->
  exists x before, In x xs /\ In a (Proc.actions (body x) before).
Proof.
  unfold Proc.actions.
  induction xs as [|x rest IH]; intros past a; [intros []|].
  rewrite forEach_cons.
  destruct (body x past) as [done [[[]|e]|e]] eqn:Ex.
  - destruct (forEach rest body (past ++ done)) as [more r] eqn:Er.
    cbn [fst]. rewrite in_app_iff. intros [Hin|Hin].
    + exists x, past. rewrite Ex. split; [now left|exact Hin].
    + destruct (IH (past ++ done) a) as (y & before & Hy & Ha).
      { now rewrite Er. }
      exists y, before. split; [now right|exact Ha].
  - cbn [fst]. intros Hin. exists x, past. rewrite Ex. split; [now left|exact Hin].
  - cbn [fst]. intros Hin. exists x, past. rewrite Ex. split; [now left|exact Hin].
Qed.

(** A loop that completes wrote what its turns wrote, in order. *)
Lemma forEach_writes {A} (xs : list A) body (f : A -> list string) :
  (forall x past done,
     body x past = (done, Proc.Settled (Js.Normal tt)) -> writes done = f x) ->
  forall past,
    Proc.completion (forEach xs body) past = Js.Normal tt ->
    writes (Proc.actions (forEach xs body) past) = flat_map f xs.
Proof.
  intros Hbody. unfold Proc.actions, Proc.completion.
  induction xs as [|x rest IH]; intros past; [reflexivity|].
  rewrite forEach_cons.
  destruct (body x past) as [done [[[]|e]|e]] eqn:Ex; [|discriminate|discriminate].
  specialize (IH (past ++ done)).
  destruct (forEach rest body (past ++ done)) as [more r].
  cbn [fst snd] in *. intros Hr.
  rewrite writes_app, (Hbody _ _ _ Ex), (IH Hr). reflexivity.
Qed.

(** A loop dies on a write when one of its turns does. *)
Lemma forEach_failedWrite {A} (xs : list A) body stream :
  (forall x past done e,
     body x past = (done, Proc.Uncaught e) -> failedWrite stream past done e) ->
  forall past acts e,
    forEach xs body past = (acts, Proc.Uncaught e) -> failedWrite stream past acts e.
Proof.
  intros Hbody.
  induction xs as [|x rest IH]; intros past acts e; [discriminate|].
  rewrite forEach_cons.
  destruct (body x past) as [done [[[]|e']|e']] eqn:Ex.
  - destruct (forEach rest body (past ++ done)) as [more r] eqn:Er.
    intros [= <- ->].
    destruct (IH _ _ _ Er) as (before & dest & text & -> & Hw).
    exists (done ++ before), dest, text. split.
    + now rewrite app_assoc.
    + now rewrite app_assoc.
  - discriminate.
  - intros [= <- <-]. exact (Hbody _ _ _ _ Ex).
Qed.


Section UpdaterProperties.
Variable Number : string -> float.
Variable __dirname : string.
Variable path_join : string -> string -> string.
Variable path_dirname : string -> string.
Variable https_get : string -> HttpResult.
Variable existsSync : list Action -> string -> bool.
Variable mkdirSync : list Action -> string -> Js.Completion unit.
Variable readFileSync : list Action -> string -> Js.Completion string.
Variable execSync : list Action -> string -> Js.Completion unit.
Variable createWriteStream : list Action -> string -> Js.Completion unit.
Variable parseRepoInfo : string -> Js.Completion (option RepoInfo).
Variable parsePackage : string -> Js.Completion (option Package).
Variable parseContents : string -> Js.Completion (option Contents).
Variable parseTree : string -> Js.Completion (option TreeData).
Variable base64Text : string -> string.

#[local] Abbreviation update :=
  (performUpdate __dirname path_join path_dirname https_get existsSync mkdirSync
     execSync createWriteStream parseTree).
#[local] Abbreviation check :=
  (checkForUpdate Number __dirname path_join path_dirname https_get existsSync
     mkdirSync readFileSync execSync createWriteStream parseRepoInfo parsePackage
     parseContents parseTree base64Text).
#[local] Abbreviation script :=
  (main Number __dirname path_join path_dirname https_get existsSync
     mkdirSync readFileSync execSync createWriteStream parseRepoInfo parsePackage
     parseContents parseTree base64Text).

#[local] Abbreviation turn :=
  (updateTurn __dirname path_join path_dirname https_get existsSync mkdirSync
     createWriteStream).

Lemma performUpdate_turns branch :
  update branch
  = (treeData <- fetchJson https_get parseTree
                   (GITHUB_API_BASE ++ "/repos/" ++ REPO_OWNER ++ "/" ++ REPO_NAME
                    ++ "/git/trees/" ++ branch ++ "?recursive=1") ;;
     match match treeData with Some data => tree data | None => None end with
     | None => Proc.throw (Js.mkError "Failed to fetch file tree." None)
     | Some items =>
         console_log ("Found " ++ Js.showNat (length items) ++ " files to process.") ;;
         forEach items (turn branch) ;;
         console_log "Update files downloaded successfully." ;;
         console_log "Updating dependencies..." ;;
         Proc.attempt (Exec "npm install") (fun past => execSync past "npm install") ;;
         restartApp
     end)%proc.
Proof. reflexivity. Qed.

Ltac prun :=
  cbn -[String.append String.concat Js.showZ Js.showNat forEach ignored
        String.eqb Z.eqb compareVersions String.prefix].

Ltac punfold :=
  unfold Proc.actions, Proc.completion, performUpdate, checkForUpdate, main,
    fetchJson, downloadFile, ensureDir, restartApp, console_log, console_error,
    Proc.try_catch, Proc.bind, Proc.ret, Proc.throw, Proc.lift, Proc.act,
    Proc.attempt, Proc.unguarded, Proc.ask.

Ltac psplit :=
  match goal with
  | |- context [match ?c with NetworkError _ => _ | Response _ _ => _ end] =>
      first [is_var c; destruct c | let E := fresh "E" in destruct c eqn:E]
  | |- context [if ?c then _ else _] =>
      let E := fresh "E" in destruct c eqn:E
  | |- context [match ?c with Js.Normal _ => _ | Js.Throw _ => _ end] =>
      first [is_var c; destruct c | let E := fresh "E" in destruct c eqn:E]
  | |- context [match ?c with Some _ => _ | None => _ end] =>
      first [is_var c; destruct c | let E := fresh "E" in destruct c eqn:E]
  | |- context [match ?c with EmptyString => _ | String _ _ => _ end] =>
      first [is_var c; destruct c | let E := fresh "E" in destruct c eqn:E]
  | |- context [match ?c with Proc.Settled _ => _ | Proc.Uncaught _ => _ end] =>
      first [is_var c; destruct c | let E := fresh "E" in destruct c eqn:E]
  | |- context [let (_, _) := ?c in _] =>
      first [is_var c; destruct c | let E := fresh "E" in destruct c eqn:E]
  end.

(** The turn of the update loop for one item of the tree. *)
Lemma update_turn branch item past :
  let localPath := path_join __dirname (path item) in
  let turn := turn branch item in
  (forall a, In a (fst (turn past)) ->
     match a with
     | Mkdir dir recursive =>
         recursive = true /\ ignored item = false
         /\ (type item = "tree"%string /\ dir = localPath
             \/ type item = "blob"%string /\ dir = path_dirname localPath)
     | WriteFile dest _ | Unlink dest =>
         ignored item = false /\ type item = "blob"%string /\ dest = localPath
     | ConsoleLog _ => True
     | _ => False
     end)
  /\ (snd (turn past) = Js.Normal tt ->
      writes (fst (turn past)) = if wanted item then [localPath] else [])
  /\ (forall e, snd (turn past) = Proc.Uncaught e ->
      failedWrite createWriteStream past (fst (turn past)) e).
Proof.
  intros localPath turn. subst turn localPath. unfold wanted, updateTurn.
  destruct (ignored item) eqn:Ei;
    [split; [intros a []|split; [reflexivity|discriminate]]|].
  destruct (String.eqb_spec (type item) "tree") as [Ht|Ht].
  - rewrite Ht. replace (String.eqb "tree" "blob") with false by reflexivity.
    punfold. prun.
    repeat (psplit; prun); (split; [|split; [reflexivity|discriminate]]);
      intros act Hin; repeat (destruct Hin as [<-|Hin]; [auto|]); destruct Hin.
  - destruct (String.eqb_spec (type item) "blob") as [Hb|Hb].
    + punfold. prun.
      repeat (psplit; prun);
        (split;
         [intros act Hin; repeat (destruct Hin as [<-|Hin]; [auto|]); destruct Hin
         |split;
          [try reflexivity; try discriminate
          |intros failure Hf; try discriminate Hf; injection Hf as <-;
           unfold failedWrite;
           match goal with
           | |- exists _ _ _, [?a; ?b; ?c] = _ /\ _ => exists [a; b]
           | |- exists _ _ _, [?a; ?b] = _ /\ _ => exists [a]
           end;
           do 2 eexists; (split; [reflexivity|]);
           repeat match goal with
                  | H : createWriteStream _ _ = _ |- _ =>
                      rewrite <- ?app_assoc in H; cbn [app] in H; revert H
                  end;
           intros; eassumption]]).
    + split; [intros a []|split; [reflexivity|discriminate]].
Qed.


(** The run of an update once the tree is known: the loop, then the
    dependencies, then the application. *)
Lemma update_run branch past chunks items :
  https_get (GITHUB_API_BASE ++ "/repos/" ++ REPO_OWNER ++ "/" ++ REPO_NAME
             ++ "/git/trees/" ++ branch ++ "?recursive=1")
  = Response 200 chunks ->
  parseTree (String.concat "" chunks) = Js.Normal (Some (mkTreeData (Some items))) ->
  let found :=
    ConsoleLog ("Found " ++ Js.showNat (length items) ++ " files to process.") in
  exists loop outcome,
    (forall a, In a loop ->
       exists item, In item items /\
         match a with
         | Mkdir dir recursive =>
             recursive = true /\ ignored item = false
             /\ (type item = "tree"%string /\ dir = path_join __dirname (path item)
                 \/ type item = "blob"%string
                    /\ dir = path_dirname (path_join __dirname (path item)))
         | WriteFile dest _ | Unlink dest =>
             ignored item = false /\ type item = "blob"%string
             /\ dest = path_join __dirname (path item)
         | ConsoleLog _ => True
         | _ => False
         end)
    /\ (outcome = Proc.Settled (Js.Normal tt) ->
        writes loop = map (fun item => path_join __dirname (path item))
                        (filter wanted items))
    /\ (forall e, outcome = Proc.Uncaught e ->
        failedWrite createWriteStream (past ++ [found]) loop e)
    /\ update branch past
       = match outcome with
         | Proc.Uncaught e => (found :: loop, Proc.Uncaught e)
         | Proc.Settled (Js.Throw e) => (found :: loop, Proc.Settled (Js.Throw e))
         | Proc.Settled (Js.Normal _) =>
             let ready :=
               found :: loop
               ++ [ConsoleLog "Update files downloaded successfully.";
                   ConsoleLog "Updating dependencies...";
                   Exec "npm install"] in
             match execSync
                     (past ++ found :: loop
                      ++ [ConsoleLog "Update files downloaded successfully.";
                          ConsoleLog "Updating dependencies..."])
                     "npm install" with
             | Js.Normal _ =>
                 (ready ++ [ConsoleLog "Starting application. . .";
                            Spawn "npm run miner"], Proc.Settled (Js.Normal tt))
             | Js.Throw e => (ready, Proc.Settled (Js.Throw e))
             end
         end.
Proof.
  intros Hget Hparse found. rewrite performUpdate_turns.
  set (body := turn branch).
  exists (Proc.actions (forEach items body) (past ++ [found])),
         (Proc.completion (forEach items body) (past ++ [found])).
  split; [|split; [|split]].
  - intros a Hin.
    destruct (forEach_action_in items body _ a Hin) as (item & before & Hitem & Ha).
    exists item. split; [exact Hitem|].
    destruct (update_turn branch item before) as [Hacts _].
    exact (Hacts a Ha).
  - intros Hdone.
    rewrite (forEach_writes items body
               (fun item => if wanted item then [path_join __dirname (path item)] else [])).
    + clear. induction items as [|item rest IH]; [reflexivity|].
      cbn [flat_map filter]. destruct (wanted item); cbn [map app]; now rewrite IH.
    + intros item before done Hturn.
      destruct (update_turn branch item before) as (_ & Hw & _).
      cbv zeta in Hw. fold body in Hw. rewrite Hturn in Hw. now apply Hw.
    + exact Hdone.
  - intros e He. unfold Proc.actions, Proc.completion in *.
    apply (forEach_failedWrite items body createWriteStream).
    + intros item before done e' Hturn.
      destruct (update_turn branch item before) as (_ & _ & Hu).
      cbv zeta in Hu. fold body in Hu. rewrite Hturn in Hu. now apply Hu.
    + destruct (forEach items body (past ++ [found])) as [acts r].
      cbn [fst snd] in *. now subst r.
  - unfold Proc.actions, Proc.completion. subst found. clearbody body.
    unfold console_log, restartApp, fetchJson.
    unfold Proc.bind, Proc.lift, Proc.throw, Proc.ret, Proc.attempt, Proc.act.
    rewrite Hget. cbn [Z.eqb Pos.eqb negb]. rewrite Hparse. cbn [tree app].
    rewrite !app_nil_r.
    destruct (forEach items body _) as [loop [[[]|e]|e]]; cbn [fst snd app].
    + rewrite <- !app_assoc. cbn [app].
      destruct (execSync _ "npm install") as [[]|e];
        unfold console_log, Proc.act; cbn [app];
        rewrite <- ?app_assoc; reflexivity.
    + reflexivity.
    + reflexivity.
Qed.

(** X13. Without the tree nothing is touched: unless the request for it answers
    200 with a document that holds a tree, the update throws before any
    action. *)
Theorem update_without_tree branch past :
  (forall chunks items,
     https_get (GITHUB_API_BASE ++ "/repos/" ++ REPO_OWNER ++ "/" ++ REPO_NAME
                ++ "/git/trees/" ++ branch ++ "?recursive=1")
     = Response 200 chunks ->
     parseTree (String.concat "" chunks) <> Js.Normal (Some (mkTreeData (Some items)))) ->
  Proc.actions (update branch) past = []
  /\ exists e, Proc.completion (update branch) past = Js.Throw e.
Proof.
  intros Hnone. rewrite performUpdate_turns.
  unfold Proc.actions, Proc.completion, fetchJson.
  unfold Proc.bind at 1.
  destruct (https_get _) as [err|status chunks] eqn:Hget.
  - cbn. eauto.
  - destruct (Z.eqb_spec status 200) as [->|Hs]; cbn [negb].
    + specialize (Hnone chunks). unfold Proc.lift.
      destruct (parseTree (String.concat "" chunks)) as [[[[items|]]|]|e] eqn:Hp;
        cbn; eauto.
      exfalso. now apply (Hnone items).
    + destruct (status =? 404); cbn; eauto.
Qed.


(** X15. An update is all or nothing towards the application: it completes
    exactly when it has started the application, which it does last and
    right after installing the dependencies; and the dependencies are
    installed only after every wanted file of the tree has been written, in
    the order of the tree. *)
Theorem update_all_or_nothing branch past chunks items :
  https_get (GITHUB_API_BASE ++ "/repos/" ++ REPO_OWNER ++ "/" ++ REPO_NAME
             ++ "/git/trees/" ++ branch ++ "?recursive=1")
  = Response 200 chunks ->
  parseTree (String.concat "" chunks) = Js.Normal (Some (mkTreeData (Some items))) ->
  let acts := Proc.actions (update branch) past in
  (Proc.completion (update branch) past = Js.Normal tt
   <-> In (Spawn "npm run miner") acts)
  /\ (In (Exec "npm install") acts ->
      writes acts
      = map (fun item => path_join __dirname (path item)) (filter wanted items))
  /\ (Proc.completion (update branch) past = Js.Normal tt ->
      exists before,
        acts = before ++ [Exec "npm install";
                          ConsoleLog "Starting application. . .";
                          Spawn "npm run miner"]).
Proof.
  intros Hget Hparse acts. subst acts.
  destruct (update_run branch past chunks items Hget Hparse)
    as (loop & outcome & Hloop & Hwrites & _ & Hrun).
  unfold Proc.actions, Proc.completion. rewrite Hrun. clear Hrun.
  assert (Hquiet : forall c, ~ In (Spawn c) loop /\ ~ In (Exec c) loop).
  { intros c. split; intros Hin; destruct (Hloop _ Hin) as (item & _ & []). }
  destruct outcome as [[[]|e]|e]; cbv zeta.
  - specialize (Hwrites eq_refl).
    destruct (execSync _ "npm install") as [[]|e]; cbn [fst snd].
    + split; [|split].
      * split; [intros _|reflexivity].
        right. rewrite !in_app_iff. right. cbn. auto.
      * intros _. cbn [writes flat_map app].
        change (flat_map _ ?l) with (writes l).
        rewrite !writes_app, Hwrites. cbn. now rewrite !app_nil_r.
      * intros _.
        exists (ConsoleLog ("Found " ++ Js.showNat (length items)
                            ++ " files to process.")
                :: loop ++ [ConsoleLog "Update files downloaded successfully.";
                            ConsoleLog "Updating dependencies..."]).
        cbn [app]. rewrite <- !app_assoc. reflexivity.
    + split; [|split].
      * split; [discriminate|].
        intros [Hin|Hin]; [discriminate|]. exfalso.
        apply in_app_iff in Hin as [Hin|Hin];
          [now apply (proj1 (Hquiet "npm run miner"%string))|].
        cbn in Hin.
        repeat (destruct Hin as [Hin|Hin]; [discriminate Hin|]). destruct Hin.
      * intros _. cbn [writes flat_map app].
        change (flat_map _ ?l) with (writes l).
        rewrite !writes_app, Hwrites. cbn. now rewrite !app_nil_r.
      * discriminate.
  - cbn [fst snd]. split; [|split].
    + split; [discriminate|].
      intros [Hin|Hin]; [discriminate|]. exfalso.
      now apply (proj1 (Hquiet "npm run miner"%string)).
    + intros [Hin|Hin]; [discriminate|]. exfalso.
      now apply (proj2 (Hquiet "npm install"%string)).
    + discriminate.
  - cbn [fst snd]. split; [|split].
    + split; [discriminate|].
      intros [Hin|Hin]; [discriminate|]. exfalso.
      now apply (proj1 (Hquiet "npm run miner"%string)).
    + intros [Hin|Hin]; [discriminate|]. exfalso.
      now apply (proj2 (Hquiet "npm install"%string)).
    + discriminate.
Qed.





(** X17. A 404 for the raw package.json cannot be recovered from: whatever the
    fallback request brings, the check throws, having only written to the
    console. *)
Theorem check_fails_without_raw_package past chunks repo body :
  https_get (GITHUB_API_BASE ++ "/repos/" ++ REPO_OWNER ++ "/" ++ REPO_NAME)
  = Response 200 chunks ->
  parseRepoInfo (String.concat "" chunks) = Js.Normal (Some repo) ->
  https_get (RAW_CONTENT_BASE ++ "/" ++ REPO_OWNER ++ "/" ++ REPO_NAME
             ++ "/" ++ default_branch repo ++ "/package.json")
  = Response 404 body ->
  (exists e, Proc.completion check past = Js.Throw e)
  /\ forall a, In a (Proc.actions check past) -> exists line, a = ConsoleLog line.
Proof.
  intros Hrepo Hinfo Hraw.
  unfold Proc.actions, Proc.completion.
  unfold checkForUpdate, fetchJson, console_log,
    Proc.bind, Proc.ret, Proc.throw, Proc.lift, Proc.act, Proc.ask.
  rewrite Hrepo. cbn [Z.eqb Pos.eqb negb]. rewrite Hinfo. prun.
  rewrite Hraw. cbn [Z.eqb Pos.eqb negb]. prun.
  repeat (psplit; prun).
  all: (split; [eauto|]).
  all: intros act Hin; repeat (destruct Hin as [<-|Hin]; [eauto|]); destruct Hin.
Qed.

(** X18. With both versions read, the comparison decides alone: a newer remote
    version starts the update on the default branch, anything else only
    restarts the application. *)
Theorem check_decides_by_version past chunks repo body text mine theirs :
  https_get (GITHUB_API_BASE ++ "/repos/" ++ REPO_OWNER ++ "/" ++ REPO_NAME)
  = Response 200 chunks ->
  parseRepoInfo (String.concat "" chunks) = Js.Normal (Some repo) ->
  https_get (RAW_CONTENT_BASE ++ "/" ++ REPO_OWNER ++ "/" ++ REPO_NAME
             ++ "/" ++ default_branch repo ++ "/package.json")
  = Response 200 body ->
  parsePackage (String.concat "" body) = Js.Normal (Some (mkPackage (Some theirs))) ->
  readFileSync (past ++ [ConsoleLog "Checking for updates..."])
    (path_join __dirname "package.json") = Js.Normal text ->
  parsePackage text = Js.Normal (Some (mkPackage (Some mine))) ->
  let said :=
    [ConsoleLog "Checking for updates...";
     ConsoleLog ("Local version: " ++ mine);
     ConsoleLog ("Remote version: " ++ theirs)] in
  if compareVersions Number mine theirs
  then
    let announced :=
      said ++ [ConsoleLog "New version found! Starting update process. . ."] in
    Proc.actions check past
    = announced ++ Proc.actions (update (default_branch repo)) (past ++ announced)
    /\ Proc.completion check past
       = Proc.completion (update (default_branch repo)) (past ++ announced)
  else
    Proc.actions check past = said ++ ConsoleLog "App is up to date." :: restart
    /\ Proc.completion check past = Js.Normal tt.
Proof.
  intros Hrepo Hinfo Hraw Hpkg Hread Hmine said. subst said.
  unfold Proc.actions, Proc.completion.
  unfold checkForUpdate, LOCAL_PACKAGE_PATH, fetchJson, restartApp, console_log,
    compareVersionFields, Proc.bind, Proc.ret, Proc.throw, Proc.lift, Proc.act,
    Proc.ask.
  rewrite Hrepo. cbn [Z.eqb Pos.eqb negb]. rewrite Hinfo. prun.
  rewrite Hraw. cbn [Z.eqb Pos.eqb negb]. rewrite Hpkg. prun.
  rewrite !app_nil_r. rewrite Hread. prun. rewrite Hmine. prun.
  destruct (compareVersions Number mine theirs); prun.
  - rewrite <- !app_assoc. cbn [app].
    destruct (update _ _) as [acts r]. split; reflexivity.
  - split; reflexivity.
Qed.
End UpdaterProperties.

Lemma forEach_console_log lines past :
  forEach lines console_log past = (map ConsoleLog lines, Proc.Settled (Js.Normal tt)).
Proof.
  revert past. induction lines as [|line rest IH]; intros past; [reflexivity|].
  cbn [forEach map]. unfold Proc.bind, console_log at 1, Proc.act.
  rewrite IH. reflexivity.
Qed.

Section CloseProperties.
Variables ORE_PROGRAM_ID SYSTEM_PROGRAM_ID : PublicKey.
Variables getAutomationPda getMinerPda : PublicKey -> PublicKey.
Variable initConnection : Js.Completion Connection.
Variable loadSigner : Connection -> Js.Completion Keypair.

#[local] Abbreviation close :=
  (closeAutomation ORE_PROGRAM_ID SYSTEM_PROGRAM_ID getAutomationPda getMinerPda
     initConnection loadSigner).

Ltac crun :=
  cbn -[String.append Js.showZ Js.showNat forEach Buffer.alloc Buffer.writeUInt8].

Lemma close_payload :
  Buffer.writeUInt8 (Buffer.alloc 41) 0 0 = Js.Normal (repeat 0 41).
Proof. reflexivity. Qed.

Lemma closeAutomation_run past :
  close past
  = match initConnection with
    | Js.Throw e => (failureReport e, Proc.Settled (Js.Normal tt))
    | Js.Normal connection =>
        match loadSigner connection with
        | Js.Throw e => (failureReport e, Proc.Settled (Js.Normal tt))
        | Js.Normal signer =>
            let authority := publicKey signer in
            let tx :=
              [TransactionInstruction
                 [ mkMeta authority true true;
                   mkMeta (getAutomationPda authority) false true;
                   mkMeta PublicKey_default false false;
                   mkMeta (getMinerPda authority) false true;
                   mkMeta SYSTEM_PROGRAM_ID false false ]
                 ORE_PROGRAM_ID (repeat 0 41)] in
            let before :=
              [ConsoleLog ("Loaded signer: " ++ toBase58 authority);
               ConsoleLog "Sending Close transaction...";
               SendTx tx [signer]] in
            match confirm connection tx [signer] with
            | Js.Normal signature =>
                (before ++ [ConsoleLog (newline ++ "SUCCESS! Automation closed.");
                            ConsoleLog ("Signature: " ++ signature)], Proc.Settled (Js.Normal tt))
            | Js.Throw e => (before ++ failureReport e, Proc.Settled (Js.Normal tt))
            end
        end
    end.
Proof.
  unfold closeAutomation, failureReport, console_error, console_log,
    Proc.try_catch, Proc.bind, Proc.lift, Proc.act, Proc.attempt, Proc.ret.
  rewrite close_payload.
  destruct initConnection as [connection|e]; crun.
  - destruct (loadSigner connection) as [signer|e]; crun.
    + destruct (confirm connection _ _) as [signature|e]; crun; [reflexivity|].
      destruct (Js.logs e) as [lines|]; [|reflexivity].
      rewrite forEach_console_log. reflexivity.
    + destruct (Js.logs e) as [lines|]; [|reflexivity].
      rewrite forEach_console_log. reflexivity.
  - destruct (Js.logs e) as [lines|]; [|reflexivity].
    rewrite forEach_console_log. reflexivity.
Qed.


(** X20. The script submits at most one transaction, only once the connection
    and the wallet are there. It is signed by the loaded signer alone and
    holds the single Close instruction for the ORE program: 41 zero bytes
    (opcode 0, the rest left as allocated) over the five accounts
    authority, automation, the default key, miner and the system program,
    in this order. *)
Theorem closeAutomation_transaction past :
  (length (filter isSendTx (Proc.actions close past)) <= 1)%nat
  /\ forall tx signers,
       In (SendTx tx signers) (Proc.actions close past) ->
       exists connection signer,
         initConnection = Js.Normal connection
         /\ loadSigner connection = Js.Normal signer
         /\ signers = [signer]
         /\ tx = [TransactionInstruction
                    [ mkMeta (publicKey signer) true true;
                      mkMeta (getAutomationPda (publicKey signer)) false true;
                      mkMeta PublicKey_default false false;
                      mkMeta (getMinerPda (publicKey signer)) false true;
                      mkMeta SYSTEM_PROGRAM_ID false false ]
                    ORE_PROGRAM_ID (Buffer.alloc 41)].
Proof.
  assert (Hreport : forall e, filter isSendTx (failureReport e) = []
                              /\ forall tx signers, ~ In (SendTx tx signers) (failureReport e)).
  { intros e. unfold failureReport. destruct (Js.logs e) as [lines|]; cbn.
    - split.
      + induction lines; [reflexivity|assumption].
      + intros tx signers [H|[H|H]]; try discriminate.
        apply in_map_iff in H as (? & ? & _). discriminate.
    - split; [reflexivity|]. intros tx signers [H|[]]. discriminate. }
  unfold Proc.actions. rewrite closeAutomation_run.
  destruct initConnection as [connection|e].
  - destruct (loadSigner connection) as [signer|e] eqn:Hs.
    + cbv zeta.
      assert (Hgoal : forall rest,
                 filter isSendTx rest = [] ->
                 (forall tx signers, ~ In (SendTx tx signers) rest) ->
                 forall tx0,
                 (length (filter isSendTx
                    ([ConsoleLog ("Loaded signer: " ++ toBase58 (publicKey signer));
                      ConsoleLog "Sending Close transaction...";
                      SendTx tx0 [signer]] ++ rest)) <= 1)%nat
                 /\ forall tx signers,
                      In (SendTx tx signers)
                        ([ConsoleLog ("Loaded signer: " ++ toBase58 (publicKey signer));
                          ConsoleLog "Sending Close transaction...";
                          SendTx tx0 [signer]] ++ rest) ->
                      tx = tx0 /\ signers = [signer]).
      { intros rest Hf Hn tx0. cbn [app filter isSendTx]. rewrite Hf. split; [cbn; lia|].
        intros tx signers [H|[H|[H|H]]]; try discriminate.
        - injection H as <- <-. auto.
        - now apply Hn in H. }
      destruct (confirm connection _ _) as [signature|e]; cbn [fst].
      * match goal with |- context [SendTx ?t _] =>
          destruct (Hgoal [ConsoleLog (newline ++ "SUCCESS! Automation closed.");
                           ConsoleLog ("Signature: " ++ signature)] eq_refl
                      ltac:(intros ? ? [H|[H|[]]]; discriminate) t) as [Hlen Hin] end.
        split; [exact Hlen|]. intros tx signers H. apply Hin in H as [-> ->].
        exists connection, signer. repeat split. exact Hs.
      * match goal with |- context [SendTx ?t _] =>
          destruct (Hgoal (failureReport e) (proj1 (Hreport e)) (proj2 (Hreport e)) t)
            as [Hlen Hin] end.
        split; [exact Hlen|]. intros tx signers H. apply Hin in H as [-> ->].
        exists connection, signer. repeat split. exact Hs.
    + cbn [fst]. destruct (Hreport e) as [-> Hn]. split; [cbn; lia|].
      intros tx signers H. now apply Hn in H.
  - cbn [fst]. destruct (Hreport e) as [-> Hn]. split; [cbn; lia|].
    intros tx signers H. now apply Hn in H.
Qed.
End CloseProperties.

(** * Examples of the further properties *)

#[local] Open Scope string_scope.

(** The stale miner's deploy is confirmed: the cycle ends with the success
    line and the handler is not called. *)
Lemma deploy_success_is_logged_witness :
  confirm Demo.stale (Demo.submitted Demo.stale) [Demo.signer] = Demo.confirmed
  /\ fatals (events (Demo.sendDeployTx Demo.state Demo.targets Demo.stale
                       (Some Demo.signer))) = []
  /\ exists pre,
       events (Demo.sendDeployTx Demo.state Demo.targets Demo.stale (Some Demo.signer))
       = (pre ++ [Send (Demo.submitted Demo.stale) [Demo.signer];
                  Log "deploy successful! signature: 5VERv8NMvzbJMEkV..."])%list.
Proof.
  split; [reflexivity|].
  exact (deploy_success_is_logged Demo.ORE_PROGRAM_ID Demo.SYSTEM_PROGRAM_ID
           Demo.SOL_PER_LAMPORT Demo.getBoardPda Demo.getTreasuryPda Demo.getRoundPda
           Demo.getMinerPda Demo.getAutomationPda Demo.parseMiner Demo.parseRound
           Demo.state Demo.targets Demo.stale (Some Demo.signer)
           (Demo.submitted Demo.stale) [Demo.signer]
           "5VERv8NMvzbJMEkV8xnrLkEaWRtSz9CosKDYjCJjBRnb" submitted_stale eq_refl).
Defined.

(** With the round ready and the submission confirmed, the handler stays
    silent. *)
Lemma deploy_no_silent_failure_witness :
  Demo.targets <> []
  /\ roundReady Demo.getRoundPda Demo.parseRound Demo.stale (currentRoundId Demo.state)
  /\ fatals (events (Demo.sendDeployTx Demo.state Demo.targets Demo.stale
                       (Some Demo.signer))) = [].
Proof.
  assert (Hne : Demo.targets <> []) by discriminate.
  assert (Hready : roundReady Demo.getRoundPda Demo.parseRound Demo.stale
                     (currentRoundId Demo.state)).
  { exists (mkAccountInfo [7]), (mkRound (Some 7)), 7. repeat split. }
  split; [exact Hne|]. split; [exact Hready|].
  apply (deploy_no_silent_failure Demo.ORE_PROGRAM_ID Demo.SYSTEM_PROGRAM_ID
           Demo.SOL_PER_LAMPORT Demo.getBoardPda Demo.getTreasuryPda Demo.getRoundPda
           Demo.getMinerPda Demo.getAutomationPda Demo.parseMiner Demo.parseRound
           Demo.state Demo.targets Demo.stale Demo.signer Hne Hready).
  exists (Demo.submitted Demo.stale), "5VERv8NMvzbJMEkV8xnrLkEaWRtSz9CosKDYjCJjBRnb".
  split; [exact submitted_stale|reflexivity].
Defined.

Lemma submitted_landed :
  In (Send (Demo.submitted (Failures.network (Js.Throw Failures.landed))) [Demo.signer])
     (events (Demo.sendDeployTx Demo.state Demo.targets
                (Failures.network (Js.Throw Failures.landed)) (Some Demo.signer))).
Proof. vm_compute. right. left. reflexivity. Qed.

(** A deploy that landed and failed: the signature is found in the
    message, and the handler gets the logs kept for it. *)
Lemma deploy_failure_diagnostics_witness :
  matchSignature (Js.message Failures.landed) = Some Failures.signature
  /\ exists pre,
       events (Demo.sendDeployTx Demo.state Demo.targets
                 (Failures.network (Js.Throw Failures.landed)) (Some Demo.signer))
       = (pre ++ [Send (Demo.submitted (Failures.network (Js.Throw Failures.landed)))
                    [Demo.signer];
                  Fatal Failures.landed (Some Failures.kept)])%list.
Proof.
  split; [vm_compute; reflexivity|].
  destruct (deploy_failure_diagnostics Demo.ORE_PROGRAM_ID Demo.SYSTEM_PROGRAM_ID
              Demo.SOL_PER_LAMPORT Demo.getBoardPda Demo.getTreasuryPda Demo.getRoundPda
              Demo.getMinerPda Demo.getAutomationPda Demo.parseMiner Demo.parseRound
              Demo.state Demo.targets (Failures.network (Js.Throw Failures.landed))
              (Some Demo.signer)
              (Demo.submitted (Failures.network (Js.Throw Failures.landed)))
              [Demo.signer] Failures.landed submitted_landed eq_refl) as [pre Hpre].
  exists pre. exact Hpre.
Defined.

(** A checkpoint rejected with error 0x1a counts as done: its log line
    holds the marker, followed by one more character. *)
Lemma checkpoint_benign_by_line_witness :
  In "Program failed: custom program error: 0x1a"
     (match Js.logs Failures.lookalike with Some lines => lines | None => [] end)
  /\ completion (Demo.sendCheckpointTx 8 (Failures.network (Js.Throw Failures.lookalike))
                   (Some Demo.signer)) = Js.Normal true.
Proof.
  split; [right; left; reflexivity|].
  apply (checkpoint_benign_by_line Demo.ORE_PROGRAM_ID Demo.SYSTEM_PROGRAM_ID
           Demo.getBoardPda Demo.getTreasuryPda Demo.getRoundPda Demo.getMinerPda
           8 (Failures.network (Js.Throw Failures.lookalike)) Demo.signer
           Failures.lookalike eq_refl).
  exists "Program failed: custom program error: 0x1a", "Program failed: ", "a".
  split; [right; left; reflexivity|reflexivity].
Defined.

(** 1.2.0.beta and 1.2 compare alike against 1.10. *)
Lemma compareVersions_trailing_witness :
  Forall (fun part => orZero (Some (Host.Number part)) = 0%float) (splitDots "0.beta")
  /\ compareVersions Host.Number "1.2.0.beta" "1.10" = compareVersions Host.Number "1.2" "1.10"
  /\ compareVersions Host.Number "1.10" "1.2.0.beta" = compareVersions Host.Number "1.10" "1.2".
Proof.
  assert (Htail : Forall (fun part => orZero (Some (Host.Number part)) = 0%float)
                    (splitDots "0.beta")).
  { repeat constructor. }
  split; [exact Htail|].
  exact (compareVersions_trailing Host.Number "1.2" "0.beta" "1.10" Htail).
Defined.

(** Where the tree cannot be fetched, the update does nothing. *)
Lemma update_without_tree_witness :
  Proc.actions (Host.performUpdate Host.unreadable "main") [] = []
  /\ exists e, Proc.completion (Host.performUpdate Host.unreadable "main") [] = Js.Throw e.
Proof.
  apply (update_without_tree Host.__dirname Host.path_join Host.path_dirname
           (Host.serve Host.unreadable) Host.existsSync Host.mkdirSync Host.execSync
           Host.createWriteStream
           Host.parseTree "main" []).
  intros chunks items Hget. discriminate Hget.
Defined.


(** The published tree: two files are written before the dependencies are
    installed, and the update completes. *)
Lemma update_all_or_nothing_witness :
  In (Exec "npm install") (Proc.actions (Host.performUpdate Host.published "main") [])
  /\ writes (Proc.actions (Host.performUpdate Host.published "main") [])
     = ["/opt/lodestar/src/app.mjs"; "/opt/lodestar/package.json"]
  /\ Proc.completion (Host.performUpdate Host.published "main") [] = Js.Normal tt.
Proof.
  assert (Hexec : In (Exec "npm install")
                     (Proc.actions (Host.performUpdate Host.published "main") [])).
  { vm_compute. do 8 right. left. reflexivity. }
  destruct (update_all_or_nothing Host.__dirname Host.path_join Host.path_dirname
              (Host.serve Host.published) Host.existsSync Host.mkdirSync Host.execSync
           Host.createWriteStream
              Host.parseTree "main" [] ["tree"] Host.items eq_refl eq_refl)
    as (Hdone & Hwrites & _).
  split; [exact Hexec|]. split.
  - exact (Hwrites Hexec).
  - apply Hdone. vm_compute. do 10 right. left. reflexivity.
Defined.

(** The raw package.json answers 404: the check throws after two lines. *)
Lemma check_fails_without_raw_package_witness :
  Host.serve Host.unreadable
    "https://raw.githubusercontent.com/Radiants-DAO/lodestar-cli/main/package.json"
  = Response 404 []
  /\ (exists e, Proc.completion (Host.checkForUpdate Host.unreadable "1.0.0") []
                = Js.Throw e)
  /\ forall a, In a (Proc.actions (Host.checkForUpdate Host.unreadable "1.0.0") []) ->
               exists line, a = ConsoleLog line.
Proof.
  split; [reflexivity|].
  exact (check_fails_without_raw_package Host.Number Host.__dirname Host.path_join
           Host.path_dirname (Host.serve Host.unreadable) Host.existsSync Host.mkdirSync
           (Host.readFileSync "1.0.0") Host.execSync Host.createWriteStream
           Host.parseRepoInfo
           Host.parsePackage Host.parseContents Host.parseTree Host.base64Text
           [] ["main"] (mkRepoInfo "main") [] eq_refl eq_refl eq_refl).
Defined.

(** Version 1.0.0 against the published 1.0.1: the check ends as the
    update of branch main does. *)
Lemma check_decides_by_version_witness :
  compareVersions Host.Number "1.0.0" "1.0.1" = true
  /\ Proc.completion (Host.checkForUpdate Host.published "1.0.0") []
     = Proc.completion (Host.performUpdate Host.published "main")
         [ConsoleLog "Checking for updates...";
          ConsoleLog "Local version: 1.0.0";
          ConsoleLog "Remote version: 1.0.1";
          ConsoleLog "New version found! Starting update process. . ."].
Proof.
  split; [vm_compute; reflexivity|].
  pose proof (check_decides_by_version Host.Number Host.__dirname Host.path_join
                Host.path_dirname (Host.serve Host.published) Host.existsSync
                Host.mkdirSync (Host.readFileSync "1.0.0") Host.execSync
                Host.createWriteStream Host.parseRepoInfo Host.parsePackage Host.parseContents Host.parseTree
                Host.base64Text [] ["ma"; "in"] (mkRepoInfo "main") ["1.0.1"]
                "1.0.0" "1.0.0" "1.0.1" eq_refl eq_refl eq_refl eq_refl eq_refl eq_refl)
    as H.
  cbv zeta in H.
  replace (compareVersions Host.Number "1.0.0" "1.0.1") with true in H
    by (vm_compute; reflexivity).
  exact (proj2 H).
Defined.


(** The three ends of the updater on the published repository: up to date,
    the application is started; without the raw package.json, the failure
    is reported and the updater leaves; on a full disk, the run stops at
    the first write. *)
Example updater_up_to_date :
  Host.main Host.createWriteStream Host.published "1.0.1" []
  = ([ConsoleLog "Checking for updates...";
      ConsoleLog "Local version: 1.0.1";
      ConsoleLog "Remote version: 1.0.1";
      ConsoleLog "App is up to date.";
      ConsoleLog "Starting application. . .";
      Spawn "npm run miner"],
     Proc.Settled (Js.Normal tt)).
Proof. vm_compute. reflexivity. Qed.

Example updater_reports_failure :
  Host.main Host.createWriteStream Host.unreadable "1.0.0" []
  = ([ConsoleLog "Checking for updates...";
      ConsoleLog "Local version: 1.0.0";
      ConsoleError "Update failed: Cannot read properties of null (reading 'version')";
      Exit 1],
     Proc.Settled (Js.Normal tt)).
Proof. vm_compute. reflexivity. Qed.

Example updater_dies_on_full_disk :
  Host.main Host.fullDisk Host.published "1.0.0" []
  = ([ConsoleLog "Checking for updates...";
      ConsoleLog "Local version: 1.0.0";
      ConsoleLog "Remote version: 1.0.1";
      ConsoleLog "New version found! Starting update process. . .";
      ConsoleLog "Found 6 files to process.";
      Mkdir "/opt/lodestar/src" true;
      ConsoleLog "Downloading: src/app.mjs";
      WriteFile "/opt/lodestar/src/app.mjs" "console.log('lodestar')"],
     Proc.Uncaught (Js.mkError "ENOSPC: no space left on device, write" None)).
Proof. vm_compute. reflexivity. Qed.
